(** * A forwarding HTTP reverse proxy: configuration, logging, dispatch

    Shallow embedding of the Go packages [config], [logging], [proxy] and
    [main] of the proxy server, with the properties of its specification
    stated and proved over the embedding.

    Conventions.
    - Go [string] is [string] (a sequence of bytes); Go [int] is [Z].
    - Go [error] results become [option] / sum types whose constructors name
      the [fmt.Errorf] call that produced them.
    - [http.Header] (a [map[string][]string]) is [gmap string (list string)].
    - What the program reads from its environment (files, environment
      variables, the clock, the network) is an explicit argument.
    - Functions of the Go standard library are modelled in [Module golib]
      from their documented behaviour; each says which function it stands
      for. *)

From Stdlib Require Import ZArith NArith String Ascii List Bool Lia.
From stdpp Require Import base option list gmap strings fin_maps.

Import ListNotations.
Local Open Scope string_scope.
Local Open Scope Z_scope.

(* ===================================================================== *)
(** * Go standard library                                                 *)
(* ===================================================================== *)

Module golib.

(** ** Bytes *)

Definition byteval (c : ascii) : Z := Z.of_N (N_of_ascii c).

Definition isLowerByte (c : ascii) : bool :=
  (97 <=? byteval c) && (byteval c <=? 122).

Definition isUpperByte (c : ascii) : bool :=
  (65 <=? byteval c) && (byteval c <=? 90).

(** ['a' <= c <= 'z'] gives [c - ('a' - 'A')]. *)
Definition upperByte (c : ascii) : ascii :=
  if isLowerByte c then ascii_of_N (Z.to_N (byteval c - 32)) else c.

(** ['A' <= c <= 'Z'] gives [c + ('a' - 'A')]. *)
Definition lowerByte (c : ascii) : ascii :=
  if isUpperByte c then ascii_of_N (Z.to_N (byteval c + 32)) else c.

Fixpoint mapBytes (f : ascii -> ascii) (s : string) : string :=
  match s with
  | EmptyString => EmptyString
  | String c s' => String (f c) (mapBytes f s')
  end.

Fixpoint allBytes (p : ascii -> bool) (s : string) : bool :=
  match s with
  | EmptyString => true
  | String c s' => p c && allBytes p s'
  end.

(** [c < utf8.RuneSelf] *)
Definition isASCIIByte (c : ascii) : bool := byteval c <? 128.

Definition isASCII (s : string) : bool := allBytes isASCIIByte s.

(** ** [strings.ToUpper]

    The library upper-cases a string that holds only ASCII bytes byte by
    byte; any other string goes through [strings.Map(unicode.ToUpper, s)],
    which depends on the Unicode tables and is left as a parameter. *)
Definition ToUpper (unicodeUpper : string -> string) (s : string) : string :=
  if isASCII s then mapBytes upperByte s else unicodeUpper s.

(** ASCII case folding: two names are the same up to letter case when they
    agree after lower-casing the bytes ['A'..'Z']. *)
Definition asciiLower (s : string) : string := mapBytes lowerByte s.

Definition eqFold (s t : string) : Prop := asciiLower s = asciiLower t.

(** ** [strconv.Atoi]

    An optional sign followed by one or more decimal digits, whose value
    fits a 64-bit [int]; anything else is an error. *)
Definition minInt : Z := - 2 ^ 63.
Definition maxInt : Z := 2 ^ 63 - 1.

Definition digitVal (c : ascii) : option Z :=
  if (48 <=? byteval c) && (byteval c <=? 57) then Some (byteval c - 48)
  else None.

Fixpoint parseDigits (acc : Z) (s : string) : option Z :=
  match s with
  | EmptyString => Some acc
  | String c s' =>
      match digitVal c with
      | Some d => parseDigits (acc * 10 + d) s'
      | None => None
      end
  end.

Definition Atoi (s : string) : option Z :=
  let '(neg, digits) :=
    match s with
    | String "-"%char r => (true, r)
    | String "+"%char r => (false, r)
    | _ => (false, s)
    end in
  match digits with
  | EmptyString => None
  | _ =>
      match parseDigits 0 digits with
      | Some n =>
          let v := if neg then - n else n in
          if (minInt <=? v) && (v <=? maxInt) then Some v else None
      | None => None
      end
  end.

(** ** [os.Getenv]: the process environment; an unset variable reads as
    the empty string. *)
Definition Env := gmap string string.

Definition Getenv (env : Env) (key : string) : string :=
  default "" (env !! key).

(** ** Files

    A path is absent, present but not openable, a directory, or a file that
    holds bytes. *)
Inductive FileEntry :=
| Unreadable (cause : string)
| Contents (data : string)
| Directory.

Definition Files := gmap string FileEntry.

(** [os.Stat] followed by [os.IsNotExist]. *)
Definition statIsNotExist (fs : Files) (path : string) : bool :=
  match fs !! path with
  | None => true
  | Some _ => false
  end.

(** [os.Open] / reading the opened file: the bytes, or the error text. A
    directory opens, and the read of it fails. *)
Definition Open (fs : Files) (path : string) : string + string :=
  match fs !! path with
  | None => inr ("open " ++ path ++ ": no such file or directory")
  | Some (Unreadable cause) => inr cause
  | Some (Contents data) => inl data
  | Some Directory => inr ("read " ++ path ++ ": is a directory")
  end.

(** What a successful [os.MkdirAll(dir, perm)] of a one-component path
    leaves: the directory, made if nothing was there. *)
Definition MkdirAll (fs : Files) (dir : string) : Files :=
  match fs !! dir with
  | None => <[dir := Directory]> fs
  | Some _ => fs
  end.

(** ** [net/url]

    [strings.Cut(s, sep)] for a separator of one byte: the text before the
    first [sep], the text after it, and whether [sep] occurs. *)
Fixpoint cutByte (sep : ascii) (s : string) : string * string * bool :=
  match s with
  | EmptyString => (EmptyString, EmptyString, false)
  | String c s' =>
      if Ascii.eqb c sep then (EmptyString, s', true)
      else let '(before, after, found) := cutByte sep s' in
           (String c before, after, found)
  end.

(** [strings.Count(s, sep)] for a separator of one byte. *)
Fixpoint countByte (sep : ascii) (s : string) : nat :=
  match s with
  | EmptyString => O
  | String c s' => ((if Ascii.eqb c sep then 1 else 0) + countByte sep s')%nat
  end.

(** [strings.HasSuffix(s, sep)] for a separator of one byte. *)
Fixpoint endsWithByte (sep : ascii) (s : string) : bool :=
  match s with
  | EmptyString => false
  | String c EmptyString => Ascii.eqb c sep
  | String _ s' => endsWithByte sep s'
  end.

(** [s[:len(s)-1]] *)
Fixpoint dropLast (s : string) : string :=
  match s with
  | EmptyString => EmptyString
  | String _ EmptyString => EmptyString
  | String c s' => String c (dropLast s')
  end.

(** The three texts [url.Parse] divides a URL into before it decodes them:
    what comes before the query (scheme, authority and path), the query,
    and the fragment. *)
Record ParsedURL := {
  pBeforeQuery : string;
  pForceQuery : bool;
  pRawQuery : string;
  pFragment : string
}.

(** The cuts of [url.Parse]: first at the first [#], then, in what is
    before it, at the first [?] (a single [?] at the very end only sets
    [ForceQuery]). The scheme, which [getScheme] takes off in between,
    holds no [?], so the query is cut at the same place. The decoding and
    the checks that follow the cuts can only fail, see
    [proxy.newRequestError]. *)
Definition splitURL (rawURL : string) : ParsedURL :=
  let '(u, frag, _) := cutByte "#"%char rawURL in
  if endsWithByte "?"%char u && (countByte "?"%char u =? 1)%nat then
    {| pBeforeQuery := dropLast u; pForceQuery := true;
       pRawQuery := ""; pFragment := frag |}
  else
    let '(rest, query, _) := cutByte "?"%char u in
    {| pBeforeQuery := rest; pForceQuery := false;
       pRawQuery := query; pFragment := frag |}.

(** The byte [sep] does not occur in [s]. *)
Definition noByte (sep : ascii) (s : string) : bool :=
  allBytes (fun c => negb (Ascii.eqb c sep)) s.

(** ** [net/textproto] and [http.Header]

    A header map sends a key to its values, in the order they were added.
    [Add], [Set] and [Get] canonicalise the key; indexing the map directly
    does not. *)
Abbreviation Header := (gmap string (list string)).

(** [validHeaderFieldByte]: the token characters of RFC 7230. *)
Definition validHeaderFieldByte (c : ascii) : bool :=
  let n := byteval c in
  ((48 <=? n) && (n <=? 57)) || ((65 <=? n) && (n <=? 90)) ||
  ((97 <=? n) && (n <=? 122)) ||
  existsb (Z.eqb n) [33; 35; 36; 37; 38; 39; 42; 43; 45; 46; 94; 95; 96; 124; 126].

(** Upper case for the first letter and for a letter that follows a
    hyphen, lower case for the others. *)
Fixpoint canonicalize (upper : bool) (s : string) : string :=
  match s with
  | EmptyString => EmptyString
  | String c s' =>
      let c' := if upper then upperByte c else lowerByte c in
      String c' (canonicalize (Ascii.eqb c' "-"%char) s')
  end.

(** [textproto.CanonicalMIMEHeaderKey]: a key that holds a byte that is not
    a token character (a space too) is returned as it is. *)
Definition CanonicalMIMEHeaderKey (s : string) : string :=
  if allBytes validHeaderFieldByte s then canonicalize true s else s.

Definition Header_Add (h : Header) (key value : string) : Header :=
  let key := CanonicalMIMEHeaderKey key in
  <[key := (default [] (h !! key) ++ [value])%list]> h.

Definition Header_Set (h : Header) (key value : string) : Header :=
  <[CanonicalMIMEHeaderKey key := [value]]> h.

Definition Header_Get (h : Header) (key : string) : string :=
  match h !! CanonicalMIMEHeaderKey key with
  | Some (v :: _) => v
  | _ => ""
  end.

(** Every key of the map is in canonical form. *)
Definition CanonicalKeys (h : Header) : Prop :=
  forall k vs, h !! k = Some vs -> CanonicalMIMEHeaderKey k = k.

(** The header block of a message as it is on the wire: field lines, each
    a name (in the letter case the peer chose) and a value. *)
Definition FieldLines := list (string * string).

(** [textproto.Reader.ReadMIMEHeader], by which both the [net/http] server
    (for a request) and the [net/http] transport (for a response) build the
    [Header] of the message they hand to the program: every line is stored
    under its canonical key, values in arrival order. *)
Definition ReadMIMEHeader (lines : FieldLines) : Header :=
  fold_left (fun h kv => Header_Add h (fst kv) (snd kv)) lines ∅.

(** ** Dynamic values ([interface{}]) as this program logs them. *)
Inductive Value :=
| VString (s : string)
| VInt (n : Z)
| VBool (b : bool)
| VDuration (nanoseconds : Z).

(** HTTP status codes. *)
Definition StatusOK : Z := 200.
Definition StatusMethodNotAllowed : Z := 405.
Definition StatusBadGateway : Z := 502.
Definition StatusServiceUnavailable : Z := 503.
Definition StatusGatewayTimeout : Z := 504.

(** ** [http.ResponseWriter]: the header map under construction, the status
    once [WriteHeader] has been called, and the body bytes written. *)
Record ResponseWriter := {
  wHeader : Header;
  wStatus : option Z;
  wBody : string
}.

Definition newResponseWriter : ResponseWriter :=
  {| wHeader := ∅; wStatus := None; wBody := "" |}.

Definition setHeader (w : ResponseWriter) (key value : string) : ResponseWriter :=
  {| wHeader := Header_Set (wHeader w) key value;
     wStatus := wStatus w; wBody := wBody w |}.

Definition addHeader (w : ResponseWriter) (key value : string) : ResponseWriter :=
  {| wHeader := Header_Add (wHeader w) key value;
     wStatus := wStatus w; wBody := wBody w |}.

(** A second [WriteHeader] is ignored. *)
Definition WriteHeader (w : ResponseWriter) (code : Z) : ResponseWriter :=
  match wStatus w with
  | Some _ => w
  | None => {| wHeader := wHeader w; wStatus := Some code; wBody := wBody w |}
  end.

(** [Write] before [WriteHeader] sends status 200. *)
Definition Write (w : ResponseWriter) (data : string) : ResponseWriter :=
  let w := WriteHeader w StatusOK in
  {| wHeader := wHeader w; wStatus := wStatus w; wBody := wBody w ++ data |}.

(** [http.Error] *)
Definition http_Error (w : ResponseWriter) (error : string) (code : Z)
  : ResponseWriter :=
  let w := {| wHeader := delete "Content-Length" (wHeader w);
              wStatus := wStatus w; wBody := wBody w |} in
  let w := setHeader w "Content-Type" "text/plain; charset=utf-8" in
  let w := setHeader w "X-Content-Type-Options" "nosniff" in
  let w := WriteHeader w code in
  Write w (error ++ String (ascii_of_nat 10) "").

(** The double-quote byte, and a string between two of them. *)
Definition dquote : string := String (ascii_of_nat 34) "".

Definition quoted (s : string) : string := dquote ++ s ++ dquote.

(** [s] occurs in [t]. *)
Definition Contains (t s : string) : Prop :=
  exists pre post : string, t = pre ++ s ++ post.

End golib.

(* ===================================================================== *)
(** * Package [config]                                                    *)
(* ===================================================================== *)

Module config.
Import golib.

Record ServerConfig := { Port : Z; Host : string }.
Record TargetConfig := { Scheme : string; THost : string }.
Record ProxyConfig := { URL : string; Username : string; Password : string }.
Record LoggingConfig := { Level : string; Format : string }.

Record Config := {
  Server : ServerConfig;
  Target : TargetConfig;
  Proxy : ProxyConfig;
  Logging : LoggingConfig
}.

(** The errors of [validateConfig], one per [fmt.Errorf]. *)
Inductive ValidationError :=
| InvalidServerPort (port : Z)
| TargetHostRequired
| InvalidTargetScheme (scheme : string)
| ProxyURLRequired
| ProxyUsernameRequired
| ProxyPasswordRequired.

(** The errors of [LoadConfig]. *)
Inductive LoadError :=
| OpenFailed (cause : string)
| DecodeFailed (cause : string)
| InvalidConfiguration (e : ValidationError).

(** Assignments to the fields of [*Config]. *)
Definition setServerPort (c : Config) (p : Z) : Config :=
  {| Server := {| Port := p; Host := Host (Server c) |};
     Target := Target c; Proxy := Proxy c; Logging := Logging c |}.

Definition setServerHost (c : Config) (host : string) : Config :=
  {| Server := {| Port := Port (Server c); Host := host |};
     Target := Target c; Proxy := Proxy c; Logging := Logging c |}.

Definition setTargetHost (c : Config) (host : string) : Config :=
  {| Server := Server c;
     Target := {| Scheme := Scheme (Target c); THost := host |};
     Proxy := Proxy c; Logging := Logging c |}.

Definition setTargetScheme (c : Config) (scheme : string) : Config :=
  {| Server := Server c;
     Target := {| Scheme := scheme; THost := THost (Target c) |};
     Proxy := Proxy c; Logging := Logging c |}.

Definition setProxyURL (c : Config) (url : string) : Config :=
  {| Server := Server c; Target := Target c;
     Proxy := {| URL := url; Username := Username (Proxy c);
                 Password := Password (Proxy c) |};
     Logging := Logging c |}.

Definition setProxyUsername (c : Config) (user : string) : Config :=
  {| Server := Server c; Target := Target c;
     Proxy := {| URL := URL (Proxy c); Username := user;
                 Password := Password (Proxy c) |};
     Logging := Logging c |}.

Definition setProxyPassword (c : Config) (pass : string) : Config :=
  {| Server := Server c; Target := Target c;
     Proxy := {| URL := URL (Proxy c); Username := Username (Proxy c);
                 Password := pass |};
     Logging := Logging c |}.

Definition setLoggingLevel (c : Config) (lvl : string) : Config :=
  {| Server := Server c; Target := Target c; Proxy := Proxy c;
     Logging := {| Level := lvl; Format := Format (Logging c) |} |}.

(** [if v := os.Getenv(key); v != "" { assign v }] *)
Definition overrideString (env : Env) (key : string)
    (assign : Config -> string -> Config) (config : Config) : Config :=
  let v := Getenv env key in
  if decide (v <> "") then assign config v else config.

Definition overridePort (env : Env) (config : Config) : Config :=
  let port := Getenv env "PROXY_PORT" in
  if decide (port <> "") then
    match Atoi port with
    | Some p => setServerPort config p
    | None => config
    end
  else config.

Definition applyEnvironmentOverrides (env : Env) (config : Config) : Config :=
  let config := overridePort env config in
  let config := overrideString env "PROXY_HOST" setServerHost config in
  let config := overrideString env "TARGET_HOST" setTargetHost config in
  let config := overrideString env "TARGET_SCHEME" setTargetScheme config in
  let config := overrideString env "PROXY_URL" setProxyURL config in
  let config := overrideString env "PROXY_USERNAME" setProxyUsername config in
  let config := overrideString env "PROXY_PASSWORD" setProxyPassword config in
  overrideString env "LOG_LEVEL" setLoggingLevel config.

(** [None] is the [nil] error. *)
Definition validateConfig (config : Config) : option ValidationError :=
  if (Port (Server config) <=? 0) || (65535 <? Port (Server config)) then
    Some (InvalidServerPort (Port (Server config)))
  else if decide (THost (Target config) = "") then
    Some TargetHostRequired
  else if decide (Scheme (Target config) <> "http" /\
                  Scheme (Target config) <> "https") then
    Some (InvalidTargetScheme (Scheme (Target config)))
  else if decide (URL (Proxy config) = "") then
    Some ProxyURLRequired
  else if decide (Username (Proxy config) = "") then
    Some ProxyUsernameRequired
  else if decide (Password (Proxy config) = "") then
    Some ProxyPasswordRequired
  else None.

Definition DefaultConfig : Config := {|
  Server := {| Port := 8080; Host := "0.0.0.0" |};
  Target := {| Scheme := "https"; THost := "target.com" |};
  Proxy := {| URL := "http://dc.oxylabs.io:8000";
              Username := "user-ecosuite_p5OUw-country-US";
              Password := "xFV5WETRRky_" |};
  Logging := {| Level := "info"; Format := "json" |}
|}.

Section Loading.

(** [json.NewDecoder(file).Decode(&config)]: the configuration read from
    the bytes of the file, or the decoder's error text. *)
Variable jsonDecode : string -> Config + string.

Definition LoadConfig (fs : Files) (env : Env) (configPath : string)
  : Config + LoadError :=
  match Open fs configPath with
  | inr cause =>
      (* a directory opens: it is the decoder's read that fails *)
      match fs !! configPath with
      | Some Directory => inr (DecodeFailed cause)
      | _ => inr (OpenFailed cause)
      end
  | inl data =>
      match jsonDecode data with
      | inr cause => inr (DecodeFailed cause)
      | inl config =>
          let config := applyEnvironmentOverrides env config in
          match validateConfig config with
          | Some e => inr (InvalidConfiguration e)
          | None => inl config
          end
      end
  end.

End Loading.

(** The configurations the specification calls invalid: a required field
    is empty, the port is outside (0, 65535], or the scheme is neither
    http nor https. *)
Definition Invalid (c : Config) : Prop :=
  THost (Target c) = "" \/
  URL (Proxy c) = "" \/
  Username (Proxy c) = "" \/
  Password (Proxy c) = "" \/
  ~ (0 < Port (Server c) <= 65535) \/
  (Scheme (Target c) <> "http" /\ Scheme (Target c) <> "https").

(** The port of [c] is the number the environment value [v] writes. *)
Definition portIs (c : Config) (v : string) : Prop :=
  Atoi v = Some (Port (Server c)).

(** The invariant of a validated configuration. *)
Definition Valid (c : Config) : Prop :=
  0 < Port (Server c) <= 65535 /\
  THost (Target c) <> "" /\
  (Scheme (Target c) = "http" \/ Scheme (Target c) = "https") /\
  URL (Proxy c) <> "" /\
  Username (Proxy c) <> "" /\
  Password (Proxy c) <> "".

End config.

(* ===================================================================== *)
(** * Package [logging]                                                   *)
(* ===================================================================== *)

Module logging.
Import golib.

(** [type LogLevel int], with the four constants numbered by [iota]. *)
Definition LogLevel := Z.

Definition DEBUG : LogLevel := 0.
Definition INFO : LogLevel := 1.
Definition WARN : LogLevel := 2.
Definition ERROR : LogLevel := 3.

Definition LogLevel_String (l : LogLevel) : string :=
  if l =? DEBUG then "DEBUG"
  else if l =? INFO then "INFO"
  else if l =? WARN then "WARN"
  else if l =? ERROR then "ERROR"
  else "UNKNOWN".

(** [map[string]interface{}]; the [nil] map is the empty one. *)
Abbreviation Fields := (gmap string Value).

(** The [io.Writer] of a logger is the sequence of writes it has received;
    [log] issues one [fmt.Fprintln] per entry it emits. *)
Record Logger := {
  writer : list string;
  level : LogLevel;
  format : string
}.

Record LogEntry := {
  Timestamp : string;
  Level : string;
  Message : string;
  EFields : Fields
}.

Definition newline : string := String (ascii_of_nat 10) "".

Fixpoint Join (elems : list string) (sep : string) : string :=
  match elems with
  | [] => ""
  | [e] => e
  | e :: rest => e ++ sep ++ Join rest sep
  end.

Section Logger.

(** [strings.Map(unicode.ToUpper, _)], see [golib.ToUpper]. *)
Variable unicodeUpper : string -> string.
(** [time.Time.Format(time.RFC3339)] of an instant (nanoseconds). *)
Variable formatRFC3339 : Z -> string.
(** [json.Marshal] of a log entry: the bytes, or the error. *)
Variable jsonMarshal : LogEntry -> string + string.
(** [fmt.Sprintf("%v", v)] *)
Variable sprintV : Value -> string.
(** The order in which [range fields] yields the entries. *)
Variable rangeFields : Fields -> list (string * Value).

Definition parseLogLevel (levelStr : string) : LogLevel :=
  let u := ToUpper unicodeUpper levelStr in
  if decide (u = "DEBUG") then DEBUG
  else if decide (u = "INFO") then INFO
  else if decide (u = "WARN" \/ u = "WARNING") then WARN
  else if decide (u = "ERROR") then ERROR
  else INFO.

(** The writer of a new logger is [os.Stdout]; what had been written to
    it before is not the logger's concern. *)
Definition NewLogger (cfg : config.LoggingConfig) : Logger :=
  {| writer := [];
     level := parseLogLevel (config.Level cfg);
     format := config.Format cfg |}.

(** [now] is the reading of [time.Now()] taken by this call. *)
Definition log (l : Logger) (now : Z) (lvl : LogLevel) (message : string)
    (fields : Fields) : Logger :=
  if lvl <? level l then l
  else
    let entry := {| Timestamp := formatRFC3339 now;
                    Level := LogLevel_String lvl;
                    Message := message;
                    EFields := fields |} in
    let output :=
      if decide (format l = "json") then
        match jsonMarshal entry with
        | inr err => "Failed to marshal log entry: " ++ err
        | inl jsonBytes => jsonBytes
        end
      else
        let fieldsStr :=
          if decide (0 < size fields)%nat then
            let pairs :=
              map (fun kv => fst kv ++ "=" ++ sprintV (snd kv))
                  (rangeFields fields) in
            " " ++ Join pairs " "
          else "" in
        "[" ++ Timestamp entry ++ "] " ++ Level entry ++ " " ++ message
            ++ fieldsStr in
    let line := output ++ newline in
    {| writer := (writer l ++ [line])%list;
       level := level l;
       format := format l |}.

Definition Debug (l : Logger) (now : Z) (message : string) (fields : Fields) :=
  log l now DEBUG message fields.

Definition Info (l : Logger) (now : Z) (message : string) (fields : Fields) :=
  log l now INFO message fields.

Definition Warn (l : Logger) (now : Z) (message : string) (fields : Fields) :=
  log l now WARN message fields.

Definition Error (l : Logger) (now : Z) (message : string) (fields : Fields) :=
  log l now ERROR message fields.

Definition SetOutput (l : Logger) (w : list string) : Logger :=
  {| writer := w; level := level l; format := format l |}.

Definition SetLevel (l : Logger) (lvl : LogLevel) : Logger :=
  {| writer := writer l; level := lvl; format := format l |}.

End Logger.

End logging.

(* ===================================================================== *)
(** * Package [proxy]                                                     *)
(* ===================================================================== *)

Module proxy.
Import golib.

(** The fields of the inbound [*http.Request] the program reads. *)
Record URL := { Path : string; RawQuery : string }.

Record Request := {
  Method : string;
  rURL : URL;
  rHeader : Header;
  rBody : string;
  RemoteAddr : string;
  Host : string
}.

(** The request made by [http.NewRequestWithContext]: method, the URL text
    it was given and the URL [url.Parse] makes of that text, headers, body,
    and the timeout (in seconds) of the context it carries. *)
Record OutRequest := {
  oMethod : string;
  oURL : string;
  oTarget : ParsedURL;
  oHeader : Header;
  oBody : string;
  oTimeout : Z
}.

Record Response := {
  StatusCode : Z;
  respHeader : Header;
  respBody : string
}.

(** [Client.httpClient] is built once from the configuration: every
    connection goes to the parsed proxy URL, with the credentials of the
    configuration. *)
Record Client := {
  proxyURL : string;
  proxyUser : string * string;
  clientTimeout : Z;
  cconfig : config.Config
}.

Inductive NewClientError :=
| ProxyURLRequired
| InvalidProxyURL (cause : string).

Inductive ForwardError :=
| CreateRequestFailed (cause : string)
| ProxyRequestFailed (cause : string).

Definition ForwardError_Error (e : ForwardError) : string :=
  match e with
  | CreateRequestFailed cause => "failed to create request: " ++ cause
  | ProxyRequestFailed cause => "proxy request failed: " ++ cause
  end.

(** [ctx.Err()] *)
Inductive CtxErr := CtxNil | Canceled | DeadlineExceeded.

#[global] Instance CtxErr_eq_dec : EqDecision CtxErr.
Proof. solve_decision. Defined.

Record Handler := {
  client : Client;
  logger : logging.Logger;
  hconfig : config.Config
}.

(** What a handler meets outside the program while it serves one request. *)
Record World := {
  (** [http.NewRequestWithContext method url]: its error, if any (a method
      that is not a token, a URL [url.Parse] refuses) *)
  newRequestError : string -> string -> option string;
  (** [httpClient.Do]: the response of the upstream, or the error *)
  Do : OutRequest -> Response + string;
  (** the order in which [range] yields the entries of a header map *)
  rangeHeader : Header -> list (string * list string);
  (** the readings of [time.Now()], by the place that reads *)
  clock : nat -> Z;
  (** the readings of [ctx.Err()], by the place that reads *)
  ctxErr : nat -> CtxErr;
  (** [io.Copy] to the caller: [Some (n, e)] when it stops with error [e]
      after [n] bytes *)
  copyFault : option (nat * string)
}.

(** The hop-by-hop table of [copyHeaders]; a key that is not in a Go
    [map[string]bool] reads as [false]. *)
Definition copyHeaders_hopHeaders : gmap string bool :=
  list_to_map [
    ("Connection", true);
    ("Proxy-Connection", true);
    ("Keep-Alive", true);
    ("Proxy-Authenticate", true);
    ("Proxy-Authorization", true);
    ("Te", true);
    ("Trailer", true);
    ("Transfer-Encoding", true);
    ("Upgrade", true)
  ].

(** The hop-by-hop table of [copyResponseHeaders]. *)
Definition copyResponseHeaders_hopHeaders : gmap string bool :=
  list_to_map [
    ("Connection", true);
    ("Proxy-Connection", true);
    ("Keep-Alive", true);
    ("Proxy-Authenticate", true);
    ("Proxy-Authorization", true);
    ("Te", true);
    ("Trailer", true);
    ("Transfer-Encoding", true);
    ("Upgrade", true)
  ].

(** The hop-by-hop header set of the specification. *)
Definition HopByHop : list string :=
  ["Connection"; "Proxy-Connection"; "Keep-Alive"; "Proxy-Authenticate";
   "Proxy-Authorization"; "Te"; "Trailer"; "Transfer-Encoding"; "Upgrade"].

Definition index (m : gmap string bool) (name : string) : bool :=
  default false (m !! name).

(** The two nested [range] loops shared by [copyHeaders] and
    [copyResponseHeaders]: [entries] is the sequence [range src.Header]
    yields. *)
Definition copyLoop (hopHeaders : gmap string bool)
    (entries : list (string * list string)) (dst : Header) : Header :=
  fold_left
    (fun dst entry =>
       let name := fst entry in
       let values := snd entry in
       if negb (index hopHeaders name) then
         fold_left (fun dst value => Header_Add dst name value) values dst
       else dst)
    entries dst.

Definition withHeader (r : OutRequest) (h : Header) : OutRequest :=
  {| oMethod := oMethod r; oURL := oURL r; oTarget := oTarget r;
     oHeader := h; oBody := oBody r; oTimeout := oTimeout r |}.

Section Client.

Variable W : World.

(** [url.Parse]: its error, if any. *)
Variable urlParseError : string -> option string.

Definition NewClient (cfg : config.Config) : Client + NewClientError :=
  match urlParseError (config.URL (config.Proxy cfg)) with
  | Some err => inr (InvalidProxyURL err)
  | None =>
      inl {| proxyURL := config.URL (config.Proxy cfg);
             proxyUser := (config.Username (config.Proxy cfg),
                           config.Password (config.Proxy cfg));
             clientTimeout := 30;
             cconfig := cfg |}
  end.

Definition copyHeaders (dst : OutRequest) (src : Request) : OutRequest :=
  let h := copyLoop copyHeaders_hopHeaders
             (rangeHeader W (rHeader src)) (oHeader dst) in
  let h := Header_Set h "X-Forwarded-For" (RemoteAddr src) in
  let h := Header_Set h "X-Forwarded-Proto" "http" in
  let h := if decide (Host src <> "")
           then Header_Set h "X-Forwarded-Host" (Host src) else h in
  withHeader dst h.

Definition targetURL (c : Client) (originalReq : Request) : string :=
  let targetURL :=
    config.Scheme (config.Target (cconfig c)) ++ "://" ++
    config.THost (config.Target (cconfig c)) ++ Path (rURL originalReq) in
  if decide (RawQuery (rURL originalReq) <> "")
  then targetURL ++ "?" ++ RawQuery (rURL originalReq)
  else targetURL.

(** The request [ForwardRequest] hands to [httpClient.Do], when
    [http.NewRequestWithContext] accepts the method and the URL: an empty
    method stands for GET, the URL is the parse of the text, the header map
    is new. *)
Definition outbound (c : Client) (timeout : Z) (originalReq : Request)
  : OutRequest + ForwardError :=
  let targetURL := targetURL c originalReq in
  match newRequestError W (Method originalReq) targetURL with
  | Some err => inr (CreateRequestFailed err)
  | None =>
      let req := {| oMethod := if decide (Method originalReq = "")
                               then "GET" else Method originalReq;
                    oURL := targetURL;
                    oTarget := splitURL targetURL;
                    oHeader := ∅; oBody := rBody originalReq;
                    oTimeout := timeout |} in
      inl (copyHeaders req originalReq)
  end.

Definition ForwardRequest (c : Client) (timeout : Z) (originalReq : Request)
  : Response + ForwardError :=
  match outbound c timeout originalReq with
  | inr e => inr e
  | inl req =>
      match Do W req with
      | inr err => inr (ProxyRequestFailed err)
      | inl resp => inl resp
      end
  end.

End Client.

Section Handler.

Variable W : World.
Variable urlParseError : string -> option string.
Variable formatRFC3339 : Z -> string.
Variable jsonMarshal : logging.LogEntry -> string + string.
Variable sprintV : Value -> string.
Variable rangeFields : gmap string Value -> list (string * Value).
(** [time.Duration.String] *)
Variable durationString : Z -> string.

Local Abbreviation Info :=
  (logging.Info formatRFC3339 jsonMarshal sprintV rangeFields).
Local Abbreviation Error :=
  (logging.Error formatRFC3339 jsonMarshal sprintV rangeFields).

Definition NewHandler (cfg : config.Config) (logger : logging.Logger)
  : Handler + NewClientError :=
  if decide (config.URL (config.Proxy cfg) = "") then inr ProxyURLRequired
  else
    match NewClient urlParseError cfg with
    | inr err => inr err
    | inl client =>
        inl {| client := client; logger := logger; hconfig := cfg |}
    end.

Definition copyResponseHeaders (dst : ResponseWriter) (src : Response)
  : ResponseWriter :=
  {| wHeader := copyLoop copyResponseHeaders_hopHeaders
                  (rangeHeader W (respHeader src)) (wHeader dst);
     wStatus := wStatus dst;
     wBody := wBody dst |}.

(** [{"error":"%s","timestamp":"%s"}] *)
Definition errorBody (errorMsg timestamp : string) : string :=
  "{" ++ quoted "error" ++ ":" ++ quoted errorMsg ++ "," ++
  quoted "timestamp" ++ ":" ++ quoted timestamp ++ "}".

(** [io.Copy(w, resp.Body)]: the bytes that reach [w], and the error. *)
Definition ioCopy (w : ResponseWriter) (body : string)
  : ResponseWriter * Z * option string :=
  match copyFault W with
  | Some (n, err) =>
      let sent := substring 0 n body in
      (Write w sent, Z.of_nat (String.length sent), Some err)
  | None => (Write w body, Z.of_nat (String.length body), None)
  end.

(** The clock is read at [start] (0), for the first log entry (1), for
    [time.Since(start)] (2), for the closing log entry (3) and for the
    timestamp of an error body (4); [ctx.Err()] is read for the status
    (0) and for the log entry (1). *)
Definition ServeHTTP (h : Handler) (w : ResponseWriter) (r : Request)
  : ResponseWriter * logging.Logger :=
  let start := clock W 0 in
  let lg := Info (logger h) (clock W 1) "Request received"
    (list_to_map [
       ("method", VString (Method r));
       ("path", VString (Path (rURL r)));
       ("query", VString (RawQuery (rURL r)));
       ("user_agent", VString (Header_Get (rHeader r) "User-Agent"));
       ("remote_ip", VString (RemoteAddr r))]) in
  match ForwardRequest W (client h) 30 r with
  | inr err =>
      let statusCode := StatusBadGateway in
      let errorMsg := "Proxy error" in
      let '(statusCode, errorMsg) :=
        if decide (ctxErr W 0 = DeadlineExceeded)
        then (StatusGatewayTimeout, "Request timeout")
        else (statusCode, errorMsg) in
      let lg := Error lg (clock W 3) "Failed to forward request"
        (list_to_map [
           ("error", VString (ForwardError_Error err));
           ("path", VString (Path (rURL r)));
           ("method", VString (Method r));
           ("elapsed", VDuration (clock W 2 - start));
           ("status_code", VInt statusCode);
           ("timeout", VBool (bool_decide (ctxErr W 1 = DeadlineExceeded)))]) in
      let w := setHeader w "Content-Type" "application/json" in
      let w := WriteHeader w statusCode in
      let w := Write w (errorBody errorMsg (formatRFC3339 (clock W 4))) in
      (w, lg)
  | inl resp =>
      let w := copyResponseHeaders w resp in
      let w := WriteHeader w (StatusCode resp) in
      match ioCopy w (respBody resp) with
      | (w, written, Some err) =>
          let lg := Error lg (clock W 3) "Failed to copy response body"
            (list_to_map [
               ("error", VString err);
               ("path", VString (Path (rURL r)));
               ("method", VString (Method r));
               ("elapsed", VDuration (clock W 2 - start))]) in
          (w, lg)
      | (w, written, None) =>
          let lg := Info lg (clock W 3) "Request completed"
            (list_to_map [
               ("method", VString (Method r));
               ("path", VString (Path (rURL r)));
               ("status_code", VInt (StatusCode resp));
               ("bytes_written", VInt written);
               ("elapsed", VDuration (clock W 2 - start));
               ("content_type",
                VString (Header_Get (respHeader resp) "Content-Type"))]) in
          (w, lg)
      end
  end.

(** The probe of [HealthCheck]: a [HEAD] to the target, under a context
    of five seconds. *)
Definition probe (h : Handler) : OutRequest :=
  {| oMethod := "HEAD";
     oURL := config.Scheme (config.Target (hconfig h)) ++ "://" ++
             config.THost (config.Target (hconfig h));
     oTarget := splitURL (config.Scheme (config.Target (hconfig h)) ++ "://" ++
                          config.THost (config.Target (hconfig h)));
     oHeader := ∅; oBody := ""; oTimeout := 5 |}.

Definition healthyBody (timestamp : string) : string :=
  "{" ++ quoted "status" ++ ":" ++ quoted "healthy" ++ "," ++
  quoted "timestamp" ++ ":" ++ dquote ++ timestamp ++ dquote ++ "}".

Definition HealthCheck (h : Handler) (w : ResponseWriter) (r : Request)
  : ResponseWriter * logging.Logger :=
  if decide (Method r <> "GET") then
    (http_Error w "Method not allowed" StatusMethodNotAllowed, logger h)
  else
    let testReq := probe h in
    match newRequestError W (oMethod testReq) (oURL testReq) with
    | Some err =>
        let lg := Error (logger h) (clock W 0)
                    "Health check failed to create request"
                    (list_to_map [("error", VString err)]) in
        (http_Error w "Health check failed" StatusServiceUnavailable, lg)
    | None =>
        match Do W testReq with
        | inr err =>
            let lg := Error (logger h) (clock W 0) "Health check failed"
                        (list_to_map [("error", VString err)]) in
            (http_Error w "Health check failed" StatusServiceUnavailable, lg)
        | inl _ =>
            let w := setHeader w "Content-Type" "application/json" in
            let w := WriteHeader w StatusOK in
            let w := Write w (healthyBody (formatRFC3339 (clock W 1))) in
            (w, logger h)
        end
    end.

(** [time.Since(time.Now())]: the clock is read twice, (0) then (1). *)
Definition metricsBody (uptime : string) : string :=
  "{" ++ quoted "metrics" ++ ":{" ++ quoted "uptime" ++ ":" ++ dquote ++
  uptime ++ dquote ++ "," ++ quoted "requests_total" ++ ":0}}".

Definition Metrics (h : Handler) (w : ResponseWriter) (r : Request)
  : ResponseWriter :=
  if decide (Method r <> "GET") then
    http_Error w "Method not allowed" StatusMethodNotAllowed
  else
    let w := setHeader w "Content-Type" "application/json" in
    let w := WriteHeader w StatusOK in
    Write w (metricsBody (durationString (clock W 1 - clock W 0))).

End Handler.

End proxy.

(* ===================================================================== *)
(** * Package [main]                                                      *)
(* ===================================================================== *)

Module main.
Import golib.

(** The ways the file system can refuse the three steps by which
    [loadConfigWithFallback] writes the default file: [os.MkdirAll],
    [os.Create], and the write of [Encode] (with the bytes that reached
    the file before the error). A step that is not refused has its effect
    on the files: the directory [config] is there, then the file is. *)
Record Faults := {
  mkdirAllError : option string;
  createError : option string;
  encodeError : option (string * string)
}.

Definition noFaults : Faults :=
  {| mkdirAllError := None; createError := None; encodeError := None |}.

Inductive FallbackError :=
| CreateDirectoryFailed (cause : string)
| CreateFileFailed (cause : string)
| WriteDefaultFailed (cause : string)
| LoadFailed (e : config.LoadError).

(** The result, the files afterwards, and what was printed. *)
Record Outcome := {
  result : config.Config + FallbackError;
  files : Files;
  stdout : list string
}.

Section Fallback.

Variable jsonDecode : string -> config.Config + string.
(** [json.Encoder.Encode] with [SetIndent("", "  ")]: the text written. *)
Variable jsonEncode : config.Config -> string.

Definition loadConfigWithFallback (faults : Faults) (fs : Files) (env : Env)
    (configPath : string) : Outcome :=
  if statIsNotExist fs configPath then
    let out1 := "Config file " ++ configPath ++
                " not found, creating default configuration" in
    let defaultCfg := config.DefaultConfig in
    match mkdirAllError faults with
    | Some err =>
        {| result := inr (CreateDirectoryFailed err);
           files := fs; stdout := [out1] |}
    | None =>
        let fs := MkdirAll fs "config" in
        match createError faults with
        | Some err =>
            {| result := inr (CreateFileFailed err);
               files := fs; stdout := [out1] |}
        | None =>
            match encodeError faults with
            | Some (written, err) =>
                {| result := inr (WriteDefaultFailed err);
                   files := <[configPath := Contents written]> fs;
                   stdout := [out1] |}
            | None =>
                {| result := inl defaultCfg;
                   files := <[configPath := Contents (jsonEncode defaultCfg)]> fs;
                   stdout := [out1; "Default configuration created at " ++
                                    configPath] |}
            end
        end
    end
  else
    {| result :=
         match config.LoadConfig jsonDecode fs env configPath with
         | inl c => inl c
         | inr e => inr (LoadFailed e)
         end;
       files := fs; stdout := [] |}.

End Fallback.

End main.

(* ===================================================================== *)
(** * Sample inputs                                                       *)
(* ===================================================================== *)

Module samples.
Import golib.

(** A file system with the default configuration stored at
    [config/config.json]; [defaultText] stands for its JSON text. *)
Definition defaultText : string := "{default configuration}".

Definition decode (data : string) : config.Config + string :=
  if decide (data = defaultText) then inl config.DefaultConfig
  else inr "unexpected end of JSON input".

Definition encode (c : config.Config) : string := defaultText.

Definition disk : Files := {[ "config/config.json" := Contents defaultText ]}.

Definition emptyDisk : Files := ∅.

(** Environments: the override of the unit test, and a port that is not a
    number. *)
Definition envPort9999 : Env :=
  {[ "PROXY_PORT" := "9999"; "TARGET_HOST" := "example.com" ]}.

Definition envPortWord : Env := {[ "PROXY_PORT" := "abc" ]}.

(** Stand-ins for the library functions the logger calls. *)
Definition unicodeUpper (s : string) : string := s.

Definition formatRFC3339 (t : Z) : string := "2024-05-01T12:00:00Z".

Definition jsonMarshal (e : logging.LogEntry) : string + string :=
  inl (logging.Level e ++ " " ++ logging.Message e).

Definition sprintV (v : Value) : string :=
  match v with
  | VString s => s
  | VInt _ => "0"
  | VBool true => "true"
  | VBool false => "false"
  | VDuration _ => "0s"
  end.

Definition rangeFields (f : gmap string Value) : list (string * Value) :=
  map_to_list f.

(** An upstream proxy that refuses the connection, a map iteration in key
    order, a clock that advances by one between readings, a context that
    has not expired. *)
Definition world : proxy.World :=
  {| proxy.newRequestError := fun _ _ => None;
     proxy.Do := fun _ => inr "proxyconnect tcp: connection refused";
     proxy.rangeHeader := map_to_list;
     proxy.clock := Z.of_nat;
     proxy.ctxErr := fun _ => proxy.CtxNil;
     proxy.copyFault := None |}.

(** The same, with the deadline of the request passed. *)
Definition lateWorld : proxy.World :=
  {| proxy.newRequestError := fun _ _ => None;
     proxy.Do := fun _ => inr "context deadline exceeded";
     proxy.rangeHeader := map_to_list;
     proxy.clock := Z.of_nat;
     proxy.ctxErr := fun _ => proxy.DeadlineExceeded;
     proxy.copyFault := None |}.

(** An upstream that answers every request with 200 and a few headers. *)
Definition upstreamLines : FieldLines :=
  [("content-type", "text/plain"); ("CONNECTION", "close");
   ("Keep-alive", "timeout=5"); ("X-Test-Header", "target-response")].

Definition openWorld : proxy.World :=
  {| proxy.newRequestError := fun _ _ => None;
     proxy.Do := fun _ =>
       inl {| proxy.StatusCode := 200;
              proxy.respHeader := ReadMIMEHeader upstreamLines;
              proxy.respBody := "ok" |};
     proxy.rangeHeader := map_to_list;
     proxy.clock := Z.of_nat;
     proxy.ctxErr := fun _ => proxy.CtxNil;
     proxy.copyFault := None |}.

Definition client : proxy.Client :=
  {| proxy.proxyURL := "http://dc.oxylabs.io:8000";
     proxy.proxyUser := ("user", "secret");
     proxy.clientTimeout := 30;
     proxy.cconfig := config.DefaultConfig |}.

(** [GET /orders?id=5], with header names in mixed letter case. *)
Definition inboundLines : FieldLines :=
  [("connection", "keep-alive"); ("UPGRADE", "websocket");
   ("accept", "*/*"); ("x-forwarded-for", "203.0.113.9");
   ("TE", "trailers"); ("User-Agent", "curl/8.0")].

Definition inbound : proxy.Request :=
  {| proxy.Method := "GET";
     proxy.rURL := {| proxy.Path := "/orders"; proxy.RawQuery := "id=5" |};
     proxy.rHeader := ReadMIMEHeader inboundLines;
     proxy.rBody := "";
     proxy.RemoteAddr := "10.0.0.7:51234";
     proxy.Host := "proxy.local" |}.

(** [GET /a%23frag?q=1]: the server decodes the path to [/a#frag]. *)
Definition inboundHash : proxy.Request :=
  {| proxy.Method := "GET";
     proxy.rURL := {| proxy.Path := "/a#frag"; proxy.RawQuery := "q=1" |};
     proxy.rHeader := ∅;
     proxy.rBody := "";
     proxy.RemoteAddr := "10.0.0.7:51234";
     proxy.Host := "proxy.local" |}.

Definition inboundPost : proxy.Request :=
  {| proxy.Method := "POST";
     proxy.rURL := {| proxy.Path := "/health"; proxy.RawQuery := "" |};
     proxy.rHeader := ∅;
     proxy.rBody := "";
     proxy.RemoteAddr := "10.0.0.7:51234";
     proxy.Host := "proxy.local" |}.

Definition handler : proxy.Handler :=
  {| proxy.client := client;
     proxy.logger :=
       logging.NewLogger unicodeUpper
         {| config.Level := "debug"; config.Format := "json" |};
     proxy.hconfig := config.DefaultConfig |}.

Definition durationString (d : Z) : string := "42ns".

(** A URL parser that refuses the URL without scheme of the tests. *)
Definition urlParseError (u : string) : option string :=
  if decide (u = "://invalid") then Some "missing protocol scheme" else None.

Definition noProxyURL : config.Config :=
  {| config.Server := config.Server config.DefaultConfig;
     config.Target := config.Target config.DefaultConfig;
     config.Proxy := {| config.URL := ""; config.Username := "test-user";
                        config.Password := "test-pass" |};
     config.Logging := config.Logging config.DefaultConfig |}.

Definition noTargetHost : config.Config :=
  {| config.Server := config.Server config.DefaultConfig;
     config.Target := {| config.Scheme := "https"; config.THost := "" |};
     config.Proxy := config.Proxy config.DefaultConfig;
     config.Logging := config.Logging config.DefaultConfig |}.

End samples.

(* ===================================================================== *)
(** * Sequences of calls                                                  *)
(* ===================================================================== *)

Module scenarios.
Import golib.

(** One call of [Logger.log]: the clock reading it takes, the level, the
    message and the fields. *)
Record Call := {
  callTime : Z;
  callLevel : logging.LogLevel;
  callMessage : string;
  callFields : gmap string Value
}.

Section Calls.

Variable formatRFC3339 : Z -> string.
Variable jsonMarshal : logging.LogEntry -> string + string.
Variable sprintV : Value -> string.
Variable rangeFields : gmap string Value -> list (string * Value).

(** The calls of a list, one after the other, on the same logger. *)
Definition logAll (l : logging.Logger) (calls : list Call) : logging.Logger :=
  fold_left
    (fun l c =>
       logging.log formatRFC3339 jsonMarshal sprintV rangeFields l
         (callTime c) (callLevel c) (callMessage c) (callFields c))
    calls l.

End Calls.

(** What a copy through a hop-by-hop table should leave under a key: the
    values of the source, in their order, unless the key is in the table
    or has no value. *)
Definition relayed (hopHeaders : gmap string bool) (src : Header)
    (key : string) : option (list string) :=
  if proxy.index hopHeaders key then None
  else match src !! key with
       | Some (v :: vs) => Some (v :: vs)
       | _ => None
       end.

(** The calls a logger at level [min] writes. *)
Definition reaching (min : logging.LogLevel) (calls : list Call) : list Call :=
  List.filter (fun c => min <=? callLevel c) calls.

End scenarios.

(* ===================================================================== *)
(** * Properties                                                          *)
(* ===================================================================== *)

(** ** Facts about the library model *)

Module golib_facts.
Import golib.

Ltac each_byte c := destruct c as [[] [] [] [] [] [] [] []]; vm_compute; reflexivity.

Lemma upper_of_lower c : upperByte (lowerByte c) = upperByte c.
Proof. each_byte c. Qed.

Lemma lower_of_lower c : lowerByte (lowerByte c) = lowerByte c.
Proof. each_byte c. Qed.

Lemma upper_of_upper c : upperByte (upperByte c) = upperByte c.
Proof. each_byte c. Qed.

Lemma lower_of_upper c : lowerByte (upperByte c) = lowerByte c.
Proof. each_byte c. Qed.

Lemma ascii_of_lower c : isASCIIByte (lowerByte c) = isASCIIByte c.
Proof. each_byte c. Qed.

Lemma valid_of_lower c : validHeaderFieldByte (lowerByte c) = validHeaderFieldByte c.
Proof. each_byte c. Qed.

Lemma valid_of_upper c : validHeaderFieldByte (upperByte c) = validHeaderFieldByte c.
Proof. each_byte c. Qed.

Example Atoi_samples :
  Atoi "9999" = Some 9999 /\ Atoi "-5" = Some (-5) /\ Atoi "+7" = Some 7 /\
  Atoi "" = None /\ Atoi "-" = None /\ Atoi "12a" = None /\
  Atoi " 80" = None /\ Atoi "9223372036854775808" = None /\
  Atoi "-9223372036854775808" = Some minInt.
Proof. repeat split. Qed.

Example CanonicalMIMEHeaderKey_samples :
  CanonicalMIMEHeaderKey "content-type" = "Content-Type" /\
  CanonicalMIMEHeaderKey "TE" = "Te" /\
  CanonicalMIMEHeaderKey "x-FORWARDED-for" = "X-Forwarded-For" /\
  CanonicalMIMEHeaderKey "bad key" = "bad key".
Proof. repeat split. Qed.

Example ToUpper_samples u :
  ToUpper u "warning" = "WARNING" /\ ToUpper u "Error" = "ERROR" /\
  ToUpper u "" = "" /\ ToUpper u "trace-7" = "TRACE-7".
Proof. repeat split. Qed.

Lemma append_cons x (a b : string) : String x a ++ b = String x (a ++ b).
Proof. reflexivity. Qed.

Lemma append_assoc (a b c : string) : (a ++ b) ++ c = a ++ b ++ c.
Proof.
  induction a as [|x a IH]; [reflexivity|].
  now rewrite !append_cons, IH.
Qed.

Lemma allBytes_mapBytes p f s :
  (forall c, p (f c) = p c) -> allBytes p (mapBytes f s) = allBytes p s.
Proof.
  intros Hpf. induction s as [|c s IH]; simpl; [reflexivity|].
  now rewrite Hpf, IH.
Qed.

Lemma mapBytes_mapBytes f g s :
  mapBytes f (mapBytes g s) = mapBytes (fun c => f (g c)) s.
Proof. induction s as [|c s IH]; simpl; [reflexivity | now rewrite IH]. Qed.

Lemma mapBytes_ext f g s :
  (forall c, f c = g c) -> mapBytes f s = mapBytes g s.
Proof.
  intros Hfg. induction s as [|c s IH]; simpl; [reflexivity|].
  now rewrite Hfg, IH.
Qed.

(** Names equal up to letter case are both ASCII or both not, and have the
    same upper-case form. *)
Lemma eqFold_isASCII s t : eqFold s t -> isASCII s = isASCII t.
Proof.
  unfold eqFold, asciiLower, isASCII. intros H.
  rewrite <- (allBytes_mapBytes isASCIIByte lowerByte s ascii_of_lower).
  rewrite <- (allBytes_mapBytes isASCIIByte lowerByte t ascii_of_lower).
  now rewrite H.
Qed.

Lemma upper_asciiLower s : mapBytes upperByte (asciiLower s) = mapBytes upperByte s.
Proof.
  unfold asciiLower. rewrite mapBytes_mapBytes.
  apply mapBytes_ext, upper_of_lower.
Qed.

Lemma eqFold_upper s t : eqFold s t -> mapBytes upperByte s = mapBytes upperByte t.
Proof.
  intros H. rewrite <- (upper_asciiLower s), <- (upper_asciiLower t).
  now rewrite H.
Qed.

Lemma eqFold_ToUpper u s t :
  eqFold s t -> isASCII t = true -> ToUpper u s = mapBytes upperByte t.
Proof.
  intros H Ht. unfold ToUpper.
  rewrite (eqFold_isASCII s t H), Ht. now apply eqFold_upper.
Qed.

End golib_facts.

(** ** Configuration *)

Module config_props.
Import golib config.

Lemma Valid_or_Invalid c : Valid c \/ Invalid c.
Proof.
  unfold Valid, Invalid.
  destruct (decide (THost (Target c) = "")); [tauto|].
  destruct (decide (URL (Proxy c) = "")); [tauto|].
  destruct (decide (Username (Proxy c) = "")); [tauto|].
  destruct (decide (Password (Proxy c) = "")); [tauto|].
  destruct (decide (0 < Port (Server c) <= 65535)); [|tauto].
  destruct (decide (Scheme (Target c) = "http")); [tauto|].
  destruct (decide (Scheme (Target c) = "https")); tauto.
Qed.

Lemma Valid_not_Invalid c : Valid c -> ~ Invalid c.
Proof. unfold Valid, Invalid. intros (? & ? & ? & ? & ? & ?). intuition congruence. Qed.

Lemma validateConfig_nil c : validateConfig c = None <-> Valid c.
Proof.
  unfold validateConfig, Valid.
  destruct (Z.leb_spec (Port (Server c)) 0); simpl.
  { split; [discriminate | lia]. }
  destruct (Z.ltb_spec 65535 (Port (Server c))); simpl.
  { split; [discriminate | lia]. }
  destruct (decide (THost (Target c) = "")).
  { split; [discriminate | tauto]. }
  destruct (decide (_ /\ _)) as [[? ?]|Hs].
  { split; [discriminate | intuition congruence]. }
  destruct (decide (URL (Proxy c) = "")).
  { split; [discriminate | tauto]. }
  destruct (decide (Username (Proxy c) = "")).
  { split; [discriminate | tauto]. }
  destruct (decide (Password (Proxy c) = "")).
  { split; [discriminate | tauto]. }
  split; [intros _ | reflexivity].
  repeat split; try lia; try assumption.
  destruct (decide (Scheme (Target c) = "http")); [tauto|].
  destruct (decide (Scheme (Target c) = "https")); tauto.
Qed.

Lemma validateConfig_error c : Invalid c -> validateConfig c <> None.
Proof.
  intros Hinv Hnil. apply validateConfig_nil in Hnil.
  exact (Valid_not_Invalid c Hnil Hinv).
Qed.

(** What [LoadConfig] returns once the file has been read and decoded. *)
Lemma LoadConfig_decoded decode fs env path data file :
  Open fs path = inl data -> decode data = inl file ->
  LoadConfig decode fs env path =
    match validateConfig (applyEnvironmentOverrides env file) with
    | Some e => inr (InvalidConfiguration e)
    | None => inl (applyEnvironmentOverrides env file)
    end.
Proof. intros Ho Hd. unfold LoadConfig. now rewrite Ho, Hd. Qed.

Lemma LoadConfig_inl decode fs env path c :
  LoadConfig decode fs env path = inl c ->
  exists data file, Open fs path = inl data /\ decode data = inl file /\
    c = applyEnvironmentOverrides env file /\ validateConfig c = None.
Proof.
  unfold LoadConfig. destruct (Open fs path) as [data|] eqn:Ho;
    [|destruct (fs !! path) as [[]|]; discriminate].
  destruct (decode data) as [file|] eqn:Hd; [|discriminate].
  destruct (validateConfig _) eqn:Hv; [discriminate|].
  intros [= <-]. exists data, file. repeat split; assumption || reflexivity.
Qed.

(** C5. A configuration with an empty target host, proxy URL, proxy
    username or proxy password, a port outside (0, 65535], or a scheme that
    is neither http nor https is refused by [validateConfig], and so is the
    load of a file whose configuration (after the environment overrides) is
    such; a configuration that meets all six conditions passes validation,
    and the load of a file that holds one (after the overrides) returns
    it. *)
Theorem validation_refuses_exactly_the_invalid :
  (forall c, Invalid c -> exists e, validateConfig c = Some e) /\
  (forall c, Valid c -> validateConfig c = None) /\
  (forall decode fs env path data file,
      Open fs path = inl data -> decode data = inl file ->
      Invalid (applyEnvironmentOverrides env file) ->
      exists e, LoadConfig decode fs env path = inr (InvalidConfiguration e)) /\
  (forall decode fs env path data file,
      Open fs path = inl data -> decode data = inl file ->
      Valid (applyEnvironmentOverrides env file) ->
      LoadConfig decode fs env path = inl (applyEnvironmentOverrides env file)).
Proof.
  assert (Hbad : forall c, Invalid c -> exists e, validateConfig c = Some e).
  { intros c Hinv. destruct (validateConfig c) as [e|] eqn:Hv; [eauto|].
    now destruct (validateConfig_error c Hinv). }
  assert (Hgood : forall c, Valid c -> validateConfig c = None).
  { intros c Hn. now apply validateConfig_nil. }
  repeat split; [exact Hbad | exact Hgood | |].
  - intros decode fs env path data file Ho Hd Hinv.
    rewrite (LoadConfig_decoded _ _ _ _ _ _ Ho Hd).
    destruct (Hbad _ Hinv) as [e ->]. eauto.
  - intros decode fs env path data file Ho Hd Hn.
    rewrite (LoadConfig_decoded _ _ _ _ _ _ Ho Hd).
    now rewrite (Hgood _ Hn).
Qed.

Lemma Valid_DefaultConfig : Valid DefaultConfig.
Proof.
  unfold Valid; simpl. repeat split; try lia; try discriminate. now right.
Qed.

Lemma validation_refuses_exactly_the_invalid_witness :
  (exists e, validateConfig samples.noTargetHost = Some e) /\
  validateConfig DefaultConfig = None /\
  LoadConfig samples.decode samples.disk samples.envPort9999
    "config/config.json"
  = inl (applyEnvironmentOverrides samples.envPort9999 DefaultConfig).
Proof.
  destruct validation_refuses_exactly_the_invalid as (H1 & H2 & _ & H4).
  split; [|split].
  - apply H1. unfold Invalid; simpl. left; reflexivity.
  - apply H2. unfold Valid; simpl.
    repeat split; try lia; try discriminate. right; reflexivity.
  - apply (H4 samples.decode samples.disk samples.envPort9999
             "config/config.json" samples.defaultText DefaultConfig).
    + vm_compute; reflexivity.
    + vm_compute; reflexivity.
    + unfold Valid; vm_compute.
      repeat split; try discriminate. right; reflexivity.
Defined.

(** *** Environment overrides, field by field *)

Lemma Atoi_empty : Atoi "" = None.
Proof. reflexivity. Qed.

(** A step assigns one field; the projections of the others pass through. *)
Lemma overrideString_other {A} (proj : Config -> A) env key assign c :
  (forall c v, proj (assign c v) = proj c) ->
  proj (overrideString env key assign c) = proj c.
Proof.
  intros H. unfold overrideString. case_decide; [apply H | reflexivity].
Qed.

Lemma overrideString_set (proj : Config -> string) env key assign c :
  (forall c v, proj (assign c v) = v) ->
  Getenv env key <> "" ->
  proj (overrideString env key assign c) = Getenv env key.
Proof.
  intros H Hne. unfold overrideString. case_decide; [apply H | contradiction].
Qed.

Lemma overridePort_other {A} (proj : Config -> A) env c :
  (forall c p, proj (setServerPort c p) = proj c) ->
  proj (overridePort env c) = proj c.
Proof.
  intros H. unfold overridePort.
  case_decide; [|reflexivity]. destruct (Atoi _); [apply H | reflexivity].
Qed.

Lemma overridePort_port env c :
  Port (Server (overridePort env c)) =
    match Atoi (Getenv env "PROXY_PORT") with
    | Some p => p
    | None => Port (Server c)
    end.
Proof.
  unfold overridePort. case_decide as E.
  - now destruct (Atoi _).
  - now rewrite E.
Qed.

Ltac pass_through proj :=
  repeat first
    [ rewrite (overrideString_other proj) by reflexivity
    | rewrite (overridePort_other proj) by reflexivity ].

Lemma override_port env file :
  Port (Server (applyEnvironmentOverrides env file)) =
    match Atoi (Getenv env "PROXY_PORT") with
    | Some p => p
    | None => Port (Server file)
    end.
Proof.
  unfold applyEnvironmentOverrides; cbv zeta.
  pass_through (fun c => Port (Server c)). apply overridePort_port.
Qed.

Lemma override_host env file :
  Getenv env "PROXY_HOST" <> "" ->
  Host (Server (applyEnvironmentOverrides env file)) = Getenv env "PROXY_HOST".
Proof.
  intros H. unfold applyEnvironmentOverrides; cbv zeta.
  pass_through (fun c => Host (Server c)).
  now apply (overrideString_set (fun c => Host (Server c))).
Qed.

Lemma override_target_host env file :
  Getenv env "TARGET_HOST" <> "" ->
  THost (Target (applyEnvironmentOverrides env file)) = Getenv env "TARGET_HOST".
Proof.
  intros H. unfold applyEnvironmentOverrides; cbv zeta.
  pass_through (fun c => THost (Target c)).
  now apply (overrideString_set (fun c => THost (Target c))).
Qed.

Lemma override_target_scheme env file :
  Getenv env "TARGET_SCHEME" <> "" ->
  Scheme (Target (applyEnvironmentOverrides env file)) = Getenv env "TARGET_SCHEME".
Proof.
  intros H. unfold applyEnvironmentOverrides; cbv zeta.
  pass_through (fun c => Scheme (Target c)).
  now apply (overrideString_set (fun c => Scheme (Target c))).
Qed.

Lemma override_proxy_url env file :
  Getenv env "PROXY_URL" <> "" ->
  URL (Proxy (applyEnvironmentOverrides env file)) = Getenv env "PROXY_URL".
Proof.
  intros H. unfold applyEnvironmentOverrides; cbv zeta.
  pass_through (fun c => URL (Proxy c)).
  now apply (overrideString_set (fun c => URL (Proxy c))).
Qed.

Lemma override_proxy_username env file :
  Getenv env "PROXY_USERNAME" <> "" ->
  Username (Proxy (applyEnvironmentOverrides env file)) = Getenv env "PROXY_USERNAME".
Proof.
  intros H. unfold applyEnvironmentOverrides; cbv zeta.
  pass_through (fun c => Username (Proxy c)).
  now apply (overrideString_set (fun c => Username (Proxy c))).
Qed.

Lemma override_proxy_password env file :
  Getenv env "PROXY_PASSWORD" <> "" ->
  Password (Proxy (applyEnvironmentOverrides env file)) = Getenv env "PROXY_PASSWORD".
Proof.
  intros H. unfold applyEnvironmentOverrides; cbv zeta.
  pass_through (fun c => Password (Proxy c)).
  now apply (overrideString_set (fun c => Password (Proxy c))).
Qed.

Lemma override_log_level env file :
  Getenv env "LOG_LEVEL" <> "" ->
  Level (Logging (applyEnvironmentOverrides env file)) = Getenv env "LOG_LEVEL".
Proof.
  intros H. unfold applyEnvironmentOverrides; cbv zeta.
  pass_through (fun c => Level (Logging c)).
  now apply (overrideString_set (fun c => Level (Logging c))).
Qed.

(** C6, as the code has it. In the configuration that [LoadConfig] returns
    for a file, each of the seven text fields with an environment variable
    (server host, target host, target scheme, proxy URL, proxy username,
    proxy password, log level) equals the value of its variable when that
    value is not empty; the port equals the number written by [PROXY_PORT]
    when [strconv.Atoi] accepts the value, and stays the port of the file
    when it does not. *)
Theorem environment_overrides_file_values decode fs env path data file c :
  Open fs path = inl data -> decode data = inl file ->
  LoadConfig decode fs env path = inl c ->
  (forall p, Atoi (Getenv env "PROXY_PORT") = Some p -> Port (Server c) = p) /\
  (Atoi (Getenv env "PROXY_PORT") = None ->
     Port (Server c) = Port (Server file)) /\
  (Getenv env "PROXY_HOST" <> "" ->
     Host (Server c) = Getenv env "PROXY_HOST") /\
  (Getenv env "TARGET_HOST" <> "" ->
     THost (Target c) = Getenv env "TARGET_HOST") /\
  (Getenv env "TARGET_SCHEME" <> "" ->
     Scheme (Target c) = Getenv env "TARGET_SCHEME") /\
  (Getenv env "PROXY_URL" <> "" ->
     URL (Proxy c) = Getenv env "PROXY_URL") /\
  (Getenv env "PROXY_USERNAME" <> "" ->
     Username (Proxy c) = Getenv env "PROXY_USERNAME") /\
  (Getenv env "PROXY_PASSWORD" <> "" ->
     Password (Proxy c) = Getenv env "PROXY_PASSWORD") /\
  (Getenv env "LOG_LEVEL" <> "" ->
     Level (Logging c) = Getenv env "LOG_LEVEL").
Proof.
  intros Ho Hd Hload.
  rewrite (LoadConfig_decoded _ _ _ _ _ _ Ho Hd) in Hload.
  destruct (validateConfig _); [discriminate|].
  injection Hload as <-.
  split; [|split]; [| |repeat split].
  - intros p Hp. now rewrite override_port, Hp.
  - intros Hp. now rewrite override_port, Hp.
  - apply override_host.
  - apply override_target_host.
  - apply override_target_scheme.
  - apply override_proxy_url.
  - apply override_proxy_username.
  - apply override_proxy_password.
  - apply override_log_level.
Qed.

Lemma environment_overrides_file_values_witness :
  Port (Server (applyEnvironmentOverrides samples.envPort9999 DefaultConfig))
    = 9999 /\
  THost (Target (applyEnvironmentOverrides samples.envPort9999 DefaultConfig))
    = "example.com".
Proof.
  assert (Hload : LoadConfig samples.decode samples.disk samples.envPort9999
                    "config/config.json"
                  = inl (applyEnvironmentOverrides samples.envPort9999
                           DefaultConfig))
    by (vm_compute; reflexivity).
  destruct (environment_overrides_file_values samples.decode samples.disk
              samples.envPort9999 "config/config.json" samples.defaultText
              DefaultConfig _ eq_refl eq_refl Hload)
    as (Hport & _ & _ & Hhost & _).
  split.
  - apply Hport. vm_compute; reflexivity.
  - rewrite Hhost; [reflexivity | vm_compute; discriminate].
Defined.

(** C6, as it is stated, fails for the port: with [PROXY_PORT=abc] the load
    of the default file succeeds, and the port of the configuration is the
    8080 of the file, which the non-empty environment value does not
    write. *)
Lemma port_override_needs_a_number :
  Getenv samples.envPortWord "PROXY_PORT" <> "" /\
  LoadConfig samples.decode samples.disk samples.envPortWord
    "config/config.json" = inl DefaultConfig /\
  Port (Server DefaultConfig) = 8080 /\
  ~ portIs DefaultConfig (Getenv samples.envPortWord "PROXY_PORT").
Proof.
  repeat split.
  - vm_compute; discriminate.
  - vm_compute; discriminate.
Qed.

End config_props.

(** ** Start-up: the fallback to the default configuration *)

Module main_props.
Import golib config main.

(** C9. When no file exists at the path, [loadConfigWithFallback] does not
    read the environment and does not validate: what it returns is the same
    for every environment, is the built-in default configuration whenever
    it is a configuration, and is never an error of [LoadConfig]. When the
    default file can be written (directory, file and encoding succeed) it
    returns the default configuration and leaves its JSON text at the
    path. *)
Theorem fallback_returns_default_unchanged
    decode encode faults (fs : Files) (env : Env) path :
  statIsNotExist fs path = true ->
  (mkdirAllError faults = None -> createError faults = None ->
   encodeError faults = None ->
   result (loadConfigWithFallback decode encode faults fs env path)
     = inl DefaultConfig /\
   files (loadConfigWithFallback decode encode faults fs env path) !! path
     = Some (Contents (encode DefaultConfig))) /\
  (forall c,
     result (loadConfigWithFallback decode encode faults fs env path) = inl c ->
     c = DefaultConfig) /\
  (forall e,
     result (loadConfigWithFallback decode encode faults fs env path)
     <> inr (LoadFailed e)) /\
  (forall env',
     result (loadConfigWithFallback decode encode faults fs env' path)
     = result (loadConfigWithFallback decode encode faults fs env path)).
Proof.
  intros Hstat. unfold loadConfigWithFallback. rewrite Hstat.
  split; [|split; [|split]].
  - intros -> -> ->. simpl. split; [reflexivity | apply lookup_insert_eq].
  - intros c. destruct (mkdirAllError faults); [discriminate|].
    destruct (createError faults); [discriminate|].
    destruct (encodeError faults) as [[written err]|]; [discriminate|].
    simpl. congruence.
  - intros e. destruct (mkdirAllError faults); [discriminate|].
    destruct (createError faults); [discriminate|].
    destruct (encodeError faults) as [[written err]|]; discriminate.
  - reflexivity.
Qed.

(** With [PROXY_PORT=9999] in the environment and no file on disk, the
    fallback answers with port 8080; loading the file it has just written
    answers with port 9999. *)
Lemma fallback_returns_default_unchanged_witness :
  result (loadConfigWithFallback samples.decode samples.encode noFaults
            samples.emptyDisk samples.envPort9999 "config/config.json")
    = inl DefaultConfig /\
  Port (Server DefaultConfig) = 8080 /\
  Getenv samples.envPort9999 "PROXY_PORT" = "9999" /\
  (Port <$> (Server <$>
     match LoadConfig samples.decode
             (files (loadConfigWithFallback samples.decode samples.encode
                       noFaults samples.emptyDisk samples.envPort9999
                       "config/config.json"))
             samples.envPort9999 "config/config.json" with
     | inl c => Some c
     | inr _ => None
     end)) = Some 9999.
Proof.
  split; [|split; [|split]].
  - apply (fallback_returns_default_unchanged samples.decode samples.encode
             noFaults samples.emptyDisk samples.envPort9999
             "config/config.json"); reflexivity.
  - reflexivity.
  - vm_compute; reflexivity.
  - vm_compute; reflexivity.
Defined.

(** The file is there: the fallback is [LoadConfig]. *)
Lemma fallback_loads_existing decode encode faults (fs : Files) env path :
  statIsNotExist fs path = false ->
  result (loadConfigWithFallback decode encode faults fs env path) =
    match LoadConfig decode fs env path with
    | inl c => inl c
    | inr e => inr (LoadFailed e)
    end.
Proof. intros H. unfold loadConfigWithFallback. now rewrite H. Qed.

End main_props.

(** ** Logging *)

Module logging_props.
Import golib golib_facts logging.

Section LoggerProps.

Variable unicodeUpper : string -> string.
Variable formatRFC3339 : Z -> string.
Variable jsonMarshal : LogEntry -> string + string.
Variable sprintV : Value -> string.
Variable rangeFields : Fields -> list (string * Value).

Local Abbreviation parse := (parseLogLevel unicodeUpper).
Local Abbreviation logf := (log formatRFC3339 jsonMarshal sprintV rangeFields).

(** [parseLogLevel] looks at the upper-case form only. *)
Lemma parseLogLevel_upper s w :
  ToUpper unicodeUpper s = ToUpper unicodeUpper w -> parse s = parse w.
Proof. unfold parse, parseLogLevel. now intros ->. Qed.

Lemma parseLogLevel_fold s w :
  eqFold s w -> isASCII w = true -> parse s = parse w.
Proof.
  intros Hf Hw. apply parseLogLevel_upper.
  rewrite (eqFold_ToUpper unicodeUpper s w Hf Hw).
  unfold ToUpper. now rewrite Hw.
Qed.

Lemma parseLogLevel_default s :
  ToUpper unicodeUpper s <> "DEBUG" ->
  ToUpper unicodeUpper s <> "INFO" ->
  ToUpper unicodeUpper s <> "WARN" ->
  ToUpper unicodeUpper s <> "WARNING" ->
  ToUpper unicodeUpper s <> "ERROR" ->
  parse s = INFO.
Proof.
  intros H1 H2 H3 H4 H5. unfold parseLogLevel.
  repeat case_decide; try reflexivity; try contradiction; tauto.
Qed.

(** [log] drops an entry below the level of the logger and writes one
    line for any other. *)
Lemma log_below l now lvl message fields :
  lvl < level l -> logf l now lvl message fields = l.
Proof.
  intros H. unfold log.
  destruct (Z.ltb_spec lvl (level l)); [reflexivity | lia].
Qed.

Lemma log_at_or_above l now lvl message fields :
  level l <= lvl ->
  exists line,
    writer (logf l now lvl message fields) = (writer l ++ [line])%list /\
    level (logf l now lvl message fields) = level l /\
    format (logf l now lvl message fields) = format l.
Proof.
  intros H. unfold log.
  destruct (Z.ltb_spec lvl (level l)); [lia|].
  eexists; simpl; repeat split.
Qed.

(** C7. An entry is written exactly when its level is at least the level
    of the logger: [log] then adds one line, and otherwise leaves the logger
    as it was. For a logger at level ERROR, one Debug, one Info, one Warn
    and one Error call add a single line, the one of the Error call (for
    the JSON format: the marshalled entry with level ERROR and the message
    of that call, followed by a newline). *)
Theorem log_writes_iff_level_reached :
  (forall l now lvl message fields,
     (length (writer (logf l now lvl message fields)) = S (length (writer l))
      <-> level l <= lvl) /\
     (lvl < level l -> logf l now lvl message fields = l)) /\
  (forall l t1 m1 f1 t2 m2 f2 t3 m3 f3 t4 m4 f4,
     level l = ERROR ->
     let l1 := Debug formatRFC3339 jsonMarshal sprintV rangeFields l t1 m1 f1 in
     let l2 := Info formatRFC3339 jsonMarshal sprintV rangeFields l1 t2 m2 f2 in
     let l3 := Warn formatRFC3339 jsonMarshal sprintV rangeFields l2 t3 m3 f3 in
     let l4 := Error formatRFC3339 jsonMarshal sprintV rangeFields l3 t4 m4 f4 in
     length (writer l4) = S (length (writer l)) /\
     l4 = Error formatRFC3339 jsonMarshal sprintV rangeFields l t4 m4 f4 /\
     (forall bytes,
        format l = "json" ->
        jsonMarshal {| Timestamp := formatRFC3339 t4; Level := "ERROR";
                       Message := m4; EFields := f4 |} = inl bytes ->
        writer l4 = (writer l ++ [(bytes ++ newline)%string])%list)).
Proof.
  split.
  - intros l now lvl message fields. split; [split|].
    + intros Hlen. destruct (Z.lt_ge_cases lvl (level l)) as [Hlt|Hge]; [|lia].
      rewrite (log_below _ _ _ _ _ Hlt) in Hlen. lia.
    + intros Hle. destruct (log_at_or_above l now lvl message fields Hle)
        as (line & -> & _). rewrite length_app. simpl. lia.
    + apply log_below.
  - intros l t1 m1 f1 t2 m2 f2 t3 m3 f3 t4 m4 f4 Hl l1 l2 l3 l4.
    assert (E1 : l1 = l).
    { apply log_below. rewrite Hl. unfold DEBUG, ERROR. lia. }
    assert (E2 : l2 = l).
    { unfold l2. rewrite E1. apply log_below. rewrite Hl. unfold INFO, ERROR. lia. }
    assert (E3 : l3 = l).
    { unfold l3. rewrite E2. apply log_below. rewrite Hl. unfold WARN, ERROR. lia. }
    assert (E4 : l4 = Error formatRFC3339 jsonMarshal sprintV rangeFields l t4 m4 f4).
    { unfold l4. now rewrite E3. }
    rewrite E4. split; [|split; [reflexivity|]].
    + destruct (log_at_or_above l t4 ERROR m4 f4) as (line & Hw & _); [lia|].
      unfold Error. rewrite Hw, length_app. simpl. lia.
    + intros bytes Hfmt Hjson. unfold Error, log. rewrite Hl.
      change (ERROR <? ERROR) with false. cbv iota zeta. simpl.
      change (LogLevel_String ERROR) with "ERROR".
      rewrite Hjson. rewrite decide_True by exact Hfmt. reflexivity.
Qed.

(** C10. [parseLogLevel] reads debug, info, warn, warning and error in any
    letter case; a string whose upper-case form is none of DEBUG, INFO,
    WARN, WARNING, ERROR gives a logger at level INFO, and so does the
    empty string. *)
Theorem parseLogLevel_any_case_default_info :
  (forall s, eqFold s "debug" -> parse s = DEBUG) /\
  (forall s, eqFold s "info" -> parse s = INFO) /\
  (forall s, eqFold s "warn" \/ eqFold s "warning" -> parse s = WARN) /\
  (forall s, eqFold s "error" -> parse s = ERROR) /\
  (forall s fmt,
     ~ In (ToUpper unicodeUpper s) ["DEBUG"; "INFO"; "WARN"; "WARNING"; "ERROR"] ->
     level (NewLogger unicodeUpper
              {| config.Level := s; config.Format := fmt |}) = INFO) /\
  (forall fmt,
     level (NewLogger unicodeUpper
              {| config.Level := ""; config.Format := fmt |}) = INFO).
Proof.
  repeat split.
  - intros s H. now rewrite (parseLogLevel_fold s "debug" H eq_refl).
  - intros s H. now rewrite (parseLogLevel_fold s "info" H eq_refl).
  - intros s [H|H].
    + now rewrite (parseLogLevel_fold s "warn" H eq_refl).
    + now rewrite (parseLogLevel_fold s "warning" H eq_refl).
  - intros s H. now rewrite (parseLogLevel_fold s "error" H eq_refl).
  - intros s fmt Hnot. simpl in Hnot. unfold NewLogger; simpl.
    apply parseLogLevel_default; intros E; apply Hnot; rewrite E; tauto.
Qed.

End LoggerProps.

Lemma log_writes_iff_level_reached_witness :
  let l := SetOutput
             (NewLogger samples.unicodeUpper
                {| config.Level := "error"; config.Format := "json" |}) [] in
  let l1 := Debug samples.formatRFC3339 samples.jsonMarshal samples.sprintV
              samples.rangeFields l 1 "debug message" ∅ in
  let l2 := Info samples.formatRFC3339 samples.jsonMarshal samples.sprintV
              samples.rangeFields l1 2 "info message" ∅ in
  let l3 := Warn samples.formatRFC3339 samples.jsonMarshal samples.sprintV
              samples.rangeFields l2 3 "warn message" ∅ in
  let l4 := Error samples.formatRFC3339 samples.jsonMarshal samples.sprintV
              samples.rangeFields l3 4 "error message" ∅ in
  level l = ERROR /\
  writer l4 = [("ERROR error message" ++ newline)%string].
Proof.
  intros l l1 l2 l3 l4.
  assert (Hl : level l = ERROR) by (vm_compute; reflexivity).
  split; [exact Hl|].
  destruct (log_writes_iff_level_reached samples.formatRFC3339
              samples.jsonMarshal samples.sprintV samples.rangeFields)
    as [_ H].
  destruct (H l 1 "debug message" ∅ 2 "info message" ∅ 3 "warn message" ∅
              4 "error message" ∅ Hl) as (_ & _ & Hline).
  apply (Hline "ERROR error message"); reflexivity.
Defined.

Lemma parseLogLevel_any_case_default_info_witness :
  parseLogLevel samples.unicodeUpper "WaRnInG" = WARN /\
  level (NewLogger samples.unicodeUpper
           {| config.Level := "verbose"; config.Format := "text" |}) = INFO.
Proof.
  destruct (parseLogLevel_any_case_default_info samples.unicodeUpper)
    as (_ & _ & Hwarn & _ & Hdefault & _).
  split.
  - apply Hwarn. right. reflexivity.
  - apply Hdefault. vm_compute. intuition discriminate.
Defined.

End logging_props.

(** ** Header maps *)

Module header_facts.
Import golib golib_facts.

Lemma canonicalize_idem b s :
  canonicalize b (canonicalize b s) = canonicalize b s.
Proof.
  revert b. induction s as [|c s IH]; intros b; [reflexivity|].
  simpl. destruct b.
  - rewrite upper_of_upper. f_equal. apply IH.
  - rewrite lower_of_lower. f_equal. apply IH.
Qed.

Lemma canonicalize_asciiLower b s :
  canonicalize b (asciiLower s) = canonicalize b s.
Proof.
  revert b. induction s as [|c s IH]; intros b; [reflexivity|].
  simpl. destruct b.
  - rewrite upper_of_lower. f_equal. apply IH.
  - rewrite lower_of_lower. f_equal. apply IH.
Qed.

Lemma canonicalize_valid b s :
  allBytes validHeaderFieldByte (canonicalize b s)
  = allBytes validHeaderFieldByte s.
Proof.
  revert b. induction s as [|c s IH]; intros b; [reflexivity|].
  simpl. rewrite IH. destruct b.
  - now rewrite valid_of_upper.
  - now rewrite valid_of_lower.
Qed.

Lemma Canonical_idem s :
  CanonicalMIMEHeaderKey (CanonicalMIMEHeaderKey s) = CanonicalMIMEHeaderKey s.
Proof.
  unfold CanonicalMIMEHeaderKey.
  destruct (allBytes validHeaderFieldByte s) eqn:Hv.
  - now rewrite canonicalize_valid, Hv, canonicalize_idem.
  - now rewrite Hv.
Qed.

Lemma eqFold_valid s t :
  eqFold s t ->
  allBytes validHeaderFieldByte s = allBytes validHeaderFieldByte t.
Proof.
  unfold eqFold, asciiLower. intros H.
  rewrite <- (allBytes_mapBytes validHeaderFieldByte lowerByte s valid_of_lower).
  rewrite <- (allBytes_mapBytes validHeaderFieldByte lowerByte t valid_of_lower).
  now rewrite H.
Qed.

(** Two spellings of a header name have the same canonical key. *)
Lemma eqFold_Canonical s t :
  eqFold s t -> allBytes validHeaderFieldByte t = true ->
  CanonicalMIMEHeaderKey s = CanonicalMIMEHeaderKey t.
Proof.
  intros H Ht. unfold CanonicalMIMEHeaderKey.
  rewrite (eqFold_valid s t H), Ht.
  rewrite <- (canonicalize_asciiLower true s), <- (canonicalize_asciiLower true t).
  now rewrite H.
Qed.

Lemma CanonicalKeys_empty : CanonicalKeys ∅.
Proof. intros k vs H. now rewrite lookup_empty in H. Qed.

Lemma CanonicalKeys_Add h key value :
  CanonicalKeys h -> CanonicalKeys (Header_Add h key value).
Proof.
  intros Hh k vs. unfold Header_Add.
  destruct (decide (CanonicalMIMEHeaderKey key = k)) as [<-|Hne].
  - intros _. apply Canonical_idem.
  - rewrite lookup_insert_ne by exact Hne. apply Hh.
Qed.

Lemma CanonicalKeys_Set h key value :
  CanonicalKeys h -> CanonicalKeys (Header_Set h key value).
Proof.
  intros Hh k vs. unfold Header_Set.
  destruct (decide (CanonicalMIMEHeaderKey key = k)) as [<-|Hne].
  - intros _. apply Canonical_idem.
  - rewrite lookup_insert_ne by exact Hne. apply Hh.
Qed.

Lemma CanonicalKeys_subseteq (h h' : Header) :
  h ⊆ h' -> CanonicalKeys h' -> CanonicalKeys h.
Proof.
  intros Hsub Hh' k vs Hk. apply (Hh' k vs).
  exact (lookup_weaken _ _ _ _ Hk Hsub).
Qed.

Lemma CanonicalKeys_fold lines h :
  CanonicalKeys h ->
  CanonicalKeys
    (fold_left (fun h kv => Header_Add h (fst kv) (snd kv)) lines h).
Proof.
  revert h. induction lines as [|kv lines IH]; intros h Hh; [exact Hh|].
  simpl. apply IH. now apply CanonicalKeys_Add.
Qed.

(** What the server and the transport hand to the program has canonical
    keys, whatever the letter case on the wire. *)
Lemma CanonicalKeys_ReadMIMEHeader lines : CanonicalKeys (ReadMIMEHeader lines).
Proof. apply CanonicalKeys_fold, CanonicalKeys_empty. Qed.

End header_facts.

(** ** The cuts of a URL *)

Module url_facts.
Import golib golib_facts.


Lemma cutByte_absent sep a :
  noByte sep a = true -> cutByte sep a = (a, "", false).
Proof.
  unfold noByte. induction a as [|c a IH]; [reflexivity|].
  simpl. intros [Hc Ha]%andb_true_iff.
  destruct (Ascii.eqb c sep); [discriminate|]. now rewrite (IH Ha).
Qed.

Lemma cutByte_first sep a b :
  noByte sep a = true -> cutByte sep (a ++ String sep b) = (a, b, true).
Proof.
  unfold noByte. induction a as [|c a IH].
  - intros _. change ("" ++ String sep b) with (String sep b).
    simpl. now rewrite Ascii.eqb_refl.
  - rewrite append_cons. simpl. intros [Hc Ha]%andb_true_iff.
    destruct (Ascii.eqb c sep); [discriminate|]. now rewrite (IH Ha).
Qed.



Lemma endsWithByte_absent sep a :
  noByte sep a = true -> endsWithByte sep a = false.
Proof.
  unfold noByte. induction a as [|c a IH]; [reflexivity|].
  simpl. intros [Hc Ha]%andb_true_iff. destruct a as [|d a].
  - now destruct (Ascii.eqb c sep).
  - exact (IH Ha).
Qed.



Lemma append_nil_right (a : string) : a ++ "" = a.
Proof.
  induction a as [|x a IH]; [reflexivity|].
  now rewrite append_cons, IH.
Qed.



(** Everything after the first [#] is the fragment, a [?] there too. *)
Lemma splitURL_fragment a f :
  noByte "#" a = true -> noByte "?" a = true ->
  splitURL (a ++ "#" ++ f) = {| pBeforeQuery := a; pForceQuery := false;
                                pRawQuery := ""; pFragment := f |}.
Proof.
  intros Hh Hq. change (a ++ "#" ++ f) with (a ++ String "#" f).
  unfold splitURL. rewrite (cutByte_first _ _ _ Hh).
  rewrite (endsWithByte_absent _ _ Hq). now rewrite (cutByte_absent _ _ Hq).
Qed.

Example splitURL_samples :
  splitURL "https://target.com/orders?id=5"
    = {| pBeforeQuery := "https://target.com/orders"; pForceQuery := false;
         pRawQuery := "id=5"; pFragment := "" |} /\
  splitURL "https://target.com/a#frag?q=1"
    = {| pBeforeQuery := "https://target.com/a"; pForceQuery := false;
         pRawQuery := ""; pFragment := "frag?q=1" |} /\
  splitURL "http://h/p?"
    = {| pBeforeQuery := "http://h/p"; pForceQuery := true;
         pRawQuery := ""; pFragment := "" |} /\
  splitURL "http://h/p?a=1?b#f#g"
    = {| pBeforeQuery := "http://h/p"; pForceQuery := false;
         pRawQuery := "a=1?b"; pFragment := "f#g" |}.
Proof. repeat split. Qed.

End url_facts.

(** ** The forwarding client *)

Module client_props.
Import golib golib_facts header_facts url_facts proxy.

(** *** The copy loops *)

Lemma addValues_lookup name values (dst : Header) k :
  is_Some (fold_left (fun d v => Header_Add d name v) values dst !! k) ->
  is_Some (dst !! k) \/ k = CanonicalMIMEHeaderKey name.
Proof.
  revert dst. induction values as [|v values IH]; intros dst; simpl; [tauto|].
  intros H. destruct (IH _ H) as [Hd| ->]; [|tauto].
  unfold Header_Add in Hd.
  destruct (decide (CanonicalMIMEHeaderKey name = k)) as [<-|Hne]; [tauto|].
  rewrite lookup_insert_ne in Hd by exact Hne. tauto.
Qed.

Lemma copyLoop_lookup hop entries (dst : Header) k :
  is_Some (copyLoop hop entries dst !! k) ->
  is_Some (dst !! k) \/
  exists name values,
    In (name, values) entries /\ index hop name = false /\
    k = CanonicalMIMEHeaderKey name.
Proof.
  unfold copyLoop. revert dst.
  induction entries as [|[name values] entries IH]; intros dst; simpl; [tauto|].
  intros H. destruct (IH _ H) as [Hd|(n & vs & Hin & Hhop & ->)].
  - destruct (index hop name) eqn:Hidx; simpl in Hd; [tauto|].
    destruct (addValues_lookup _ _ _ _ Hd) as [Hd'| ->]; [tauto|].
    right. exists name, values. tauto.
  - right. exists n, vs. tauto.
Qed.

Lemma hop_names hop :
  In hop HopByHop ->
  index copyHeaders_hopHeaders hop = true /\
  index copyResponseHeaders_hopHeaders hop = true /\
  allBytes validHeaderFieldByte hop = true /\
  CanonicalMIMEHeaderKey hop = hop.
Proof.
  unfold HopByHop. simpl.
  intros [<-|[<-|[<-|[<-|[<-|[<-|[<-|[<-|[<-|[]]]]]]]]]];
    vm_compute; repeat split.
Qed.

(** No spelling of a hop-by-hop name comes out of a copy loop that ranges
    over a map with canonical keys. *)
Lemma copyLoop_drops_hop table entries (dst : Header) name hop :
  (forall h, In h HopByHop -> index table h = true) ->
  (forall n vs, In (n, vs) entries -> CanonicalMIMEHeaderKey n = n) ->
  In hop HopByHop -> eqFold name hop ->
  dst !! name = None ->
  copyLoop table entries dst !! name = None.
Proof.
  intros Htable Hcanon Hhop Hfold Hdst.
  destruct (copyLoop table entries dst !! name) as [vs|] eqn:Hl; [|reflexivity].
  exfalso.
  destruct (copyLoop_lookup table entries dst name) as [Hd|(n & vs' & Hin & Hidx & Hk)].
  - rewrite Hl. eauto.
  - rewrite Hdst in Hd. now destruct Hd.
  - destruct (hop_names hop Hhop) as (_ & _ & Hvalid & Hcan).
    pose proof (Hcanon n vs' Hin) as Hn.
    assert (Hname : name = n) by congruence.
    rewrite Hname in Hfold.
    pose proof (eqFold_Canonical n hop Hfold Hvalid) as E.
    rewrite Hn, Hcan in E.
    rewrite E, (Htable hop Hhop) in Hidx. discriminate.
Qed.

Lemma Canonical_forwarded :
  CanonicalMIMEHeaderKey "X-Forwarded-For" = "X-Forwarded-For" /\
  CanonicalMIMEHeaderKey "X-Forwarded-Proto" = "X-Forwarded-Proto" /\
  CanonicalMIMEHeaderKey "X-Forwarded-Host" = "X-Forwarded-Host".
Proof. repeat split. Qed.

(** The three headers the client sets are not hop-by-hop names. *)
Lemma forwarded_not_hop name hop :
  In hop HopByHop -> eqFold name hop ->
  name <> "X-Forwarded-For" /\ name <> "X-Forwarded-Proto" /\
  name <> "X-Forwarded-Host".
Proof.
  unfold HopByHop, eqFold. simpl.
  intros [<-|[<-|[<-|[<-|[<-|[<-|[<-|[<-|[<-|[]]]]]]]]]] H;
    repeat split; intros ->; vm_compute in H; discriminate.
Qed.

(** The filter of the copy loops compares the key as it is stored: a map
    filled by hand with a lower-case key is copied (under its canonical
    key). The maps [net/http] builds never hold such a key. *)
Lemma copyLoop_compares_stored_keys :
  copyLoop copyHeaders_hopHeaders [("connection", ["close"])] ∅
    !! "Connection" = Some ["close"].
Proof. vm_compute; reflexivity. Qed.

Section Client.

Variable W : World.

(** The text of the target URL: scheme, [://], host and inbound path, then
    [?] and the inbound query when the query is not empty. *)
Lemma targetURL_text (c : Client) (r : Request) :
  targetURL c r =
    (config.Scheme (config.Target (cconfig c)) ++ "://" ++
     config.THost (config.Target (cconfig c))) ++ Path (rURL r) ++
    (if decide (RawQuery (rURL r) = "") then ""
     else "?" ++ RawQuery (rURL r)).
Proof.
  unfold targetURL. destruct (decide (RawQuery (rURL r) = "")) as [E|E].
  - rewrite decide_False by (intros Hn; now apply Hn).
    now rewrite !append_assoc, append_nil_right.
  - rewrite decide_True by exact E. now rewrite !append_assoc.
Qed.

(** C3. The request is made from the parse of the URL text, so path and
    query do not always pass through. When the inbound path holds a [#]
    (sent as %23), with no [#] or [?] before it, the URL of the outbound
    request ends where the [#] is and has no query: the rest of the path
    and the whole inbound query are taken as the fragment. The request
    [GET /a%23frag?q=1] goes to scheme://host/a, without its query. *)
Theorem hash_in_path_cuts_the_target (c : Client) (timeout : Z)
    (r : Request) req before after :
  let base := config.Scheme (config.Target (cconfig c)) ++ "://" ++
              config.THost (config.Target (cconfig c)) in
  let query := if decide (RawQuery (rURL r) = "") then ""
               else "?" ++ RawQuery (rURL r) in
  noByte "#" (base ++ before) = true ->
  noByte "?" (base ++ before) = true ->
  Path (rURL r) = before ++ "#" ++ after ->
  outbound W c timeout r = inl req ->
  oURL req = base ++ before ++ "#" ++ after ++ query /\
  pBeforeQuery (oTarget req) = base ++ before /\
  pRawQuery (oTarget req) = "" /\
  pFragment (oTarget req) = after ++ query.
Proof.
  intros base query Hh Hq Hpath Hout.
  assert (Htext : targetURL c r = (base ++ before) ++ "#" ++ after ++ query).
  { rewrite targetURL_text, Hpath. fold base query.
    now rewrite !append_assoc. }
  unfold outbound in Hout.
  destruct (newRequestError W _ _); [discriminate|].
  injection Hout as <-. cbn [copyHeaders withHeader oURL oTarget].
  rewrite Htext, (splitURL_fragment _ _ Hh Hq).
  split; [now rewrite !append_assoc|]. repeat split.
Qed.

(** C4. In the request built by [ForwardRequest], [X-Forwarded-For] holds
    the inbound remote address and nothing else, [X-Forwarded-Proto] holds
    [http], and [X-Forwarded-Host] holds the inbound [Host] when that is
    not empty; when it is empty the header is not set, and is what the
    copy of the inbound headers left. *)
Theorem forwarded_headers_are_set (c : Client) (timeout : Z) (r : Request) req :
  outbound W c timeout r = inl req ->
  oHeader req !! "X-Forwarded-For" = Some [RemoteAddr r] /\
  oHeader req !! "X-Forwarded-Proto" = Some ["http"] /\
  (Host r <> "" -> oHeader req !! "X-Forwarded-Host" = Some [Host r]) /\
  (Host r = "" ->
     oHeader req !! "X-Forwarded-Host"
     = copyLoop copyHeaders_hopHeaders (rangeHeader W (rHeader r)) ∅
         !! "X-Forwarded-Host").
Proof.
  unfold outbound. destruct (newRequestError W _ _); [discriminate|].
  intros [= <-]. unfold copyHeaders, withHeader, Header_Set; simpl.
  destruct Canonical_forwarded as (-> & -> & ->).
  split; [|split; [|split]].
  - case_decide.
    + rewrite lookup_insert_ne by discriminate.
      rewrite lookup_insert_ne by discriminate. apply lookup_insert_eq.
    + rewrite lookup_insert_ne by discriminate. apply lookup_insert_eq.
  - case_decide.
    + rewrite lookup_insert_ne by discriminate. apply lookup_insert_eq.
    + apply lookup_insert_eq.
  - intros Hh. rewrite decide_True by exact Hh. apply lookup_insert_eq.
  - intros Hh. rewrite decide_False by (intros Hn; now apply Hn).
    rewrite lookup_insert_ne by discriminate.
    now rewrite lookup_insert_ne by discriminate.
Qed.

End Client.

Lemma hash_in_path_cuts_the_target_witness :
  exists req,
    outbound samples.world samples.client 30 samples.inboundHash = inl req /\
    oURL req = "https://target.com/a#frag?q=1" /\
    pBeforeQuery (oTarget req) = "https://target.com/a" /\
    pRawQuery (oTarget req) = "" /\
    pFragment (oTarget req) = "frag?q=1".
Proof.
  eexists. split; [reflexivity|].
  exact (hash_in_path_cuts_the_target samples.world samples.client 30
           samples.inboundHash _ "/a" "frag" eq_refl eq_refl eq_refl eq_refl).
Defined.

Lemma forwarded_headers_are_set_witness :
  exists req,
    outbound samples.world samples.client 30 samples.inbound = inl req /\
    oHeader req !! "X-Forwarded-For" = Some ["10.0.0.7:51234"] /\
    oHeader req !! "X-Forwarded-Host" = Some ["proxy.local"].
Proof.
  eexists. split; [reflexivity|].
  destruct (forwarded_headers_are_set samples.world samples.client 30
              samples.inbound _ eq_refl) as (Hfor & _ & Hhost & _).
  split; [exact Hfor | apply Hhost; discriminate].
Defined.

End client_props.

(** ** The handlers *)

Module handler_props.
Import golib golib_facts header_facts proxy client_props.

Lemma WriteHeader_header w code : wHeader (WriteHeader w code) = wHeader w.
Proof. unfold WriteHeader. now destruct (wStatus w). Qed.

Lemma http_Error_status w msg code :
  wStatus w = None -> wStatus (http_Error w msg code) = Some code.
Proof. intros H. unfold http_Error, Write, WriteHeader; simpl. now rewrite H. Qed.

Lemma Contains_errorBody msg ts :
  Contains (errorBody msg ts) (quoted "error" ++ ":" ++ quoted msg) /\
  Contains (errorBody msg ts) (quoted "timestamp" ++ ":" ++ quoted ts).
Proof.
  split.
  - exists "{", ("," ++ quoted "timestamp" ++ ":" ++ quoted ts ++ "}").
    unfold errorBody, quoted. now rewrite !append_assoc.
  - exists ("{" ++ quoted "error" ++ ":" ++ quoted msg ++ ","), "}".
    unfold errorBody, quoted. now rewrite !append_assoc.
Qed.

Lemma Contains_healthyBody ts :
  Contains (healthyBody ts) (quoted "status" ++ ":" ++ quoted "healthy").
Proof.
  exists "{", ("," ++ quoted "timestamp" ++ ":" ++ dquote ++ ts ++ dquote ++ "}").
  unfold healthyBody, quoted. now rewrite !append_assoc.
Qed.

Lemma Contains_metricsBody uptime :
  Contains (metricsBody uptime) (quoted "requests_total" ++ ":0").
Proof.
  exists ("{" ++ quoted "metrics" ++ ":{" ++ quoted "uptime" ++ ":" ++ dquote ++
          uptime ++ dquote ++ ","), "}}".
  unfold metricsBody, quoted. now rewrite !append_assoc.
Qed.

Section Handler.

Variable W : World.
Variable formatRFC3339 : Z -> string.
Variable jsonMarshal : logging.LogEntry -> string + string.
Variable sprintV : Value -> string.
Variable rangeFields : gmap string Value -> list (string * Value).
Variable durationString : Z -> string.

Local Abbreviation serve :=
  (ServeHTTP W formatRFC3339 jsonMarshal sprintV rangeFields).
Local Abbreviation health :=
  (HealthCheck W formatRFC3339 jsonMarshal sprintV rangeFields).
Local Abbreviation metrics := (Metrics W durationString).

(** C1. When [ForwardRequest] fails, the response has status 504 and a
    body with ["error":"Request timeout"] if [ctx.Err()] is
    [context.DeadlineExceeded] at the check, and status 502 and a body with
    ["error":"Proxy error"] otherwise; either way the body is the JSON
    object with the fields error and timestamp, the timestamp being the
    clock formatted as RFC 3339, and the Content-Type is
    application/json. *)
Theorem forwarding_failure_is_504_or_502 (h : Handler) (w : ResponseWriter)
    (r : Request) (err : ForwardError) :
  wStatus w = None -> wBody w = "" ->
  ForwardRequest W (client h) 30 r = inr err ->
  let w' := fst (serve h w r) in
  let ts := formatRFC3339 (clock W 4) in
  (ctxErr W 0 = DeadlineExceeded ->
     wStatus w' = Some 504 /\
     wBody w' = errorBody "Request timeout" ts /\
     Contains (wBody w') (quoted "error" ++ ":" ++ quoted "Request timeout")) /\
  (ctxErr W 0 <> DeadlineExceeded ->
     wStatus w' = Some 502 /\
     wBody w' = errorBody "Proxy error" ts /\
     Contains (wBody w') (quoted "error" ++ ":" ++ quoted "Proxy error")) /\
  Contains (wBody w') (quoted "timestamp" ++ ":" ++ quoted ts) /\
  wHeader w' !! "Content-Type" = Some ["application/json"] /\
  Header_Get (wHeader w') "Content-Type" = "application/json".
Proof.
  intros Hst Hbody Hfail w' ts.
  assert (Hw : wStatus w' =
                 Some (if decide (ctxErr W 0 = DeadlineExceeded)
                       then 504 else 502) /\
               wBody w' =
                 errorBody (if decide (ctxErr W 0 = DeadlineExceeded)
                            then "Request timeout" else "Proxy error") ts /\
               wHeader w' !! "Content-Type" = Some ["application/json"]).
  { unfold w', ServeHTTP. rewrite Hfail.
    destruct (decide (ctxErr W 0 = DeadlineExceeded));
      unfold Write, WriteHeader, setHeader; simpl; rewrite Hst; simpl;
      rewrite Hbody; repeat split; apply lookup_insert_eq. }
  destruct Hw as (H1 & H2 & H3).
  split; [|split; [|split; [|split]]].
  - intros Hd. rewrite decide_True in H1 by exact Hd.
    rewrite decide_True in H2 by exact Hd.
    repeat split; [exact H1 | exact H2 |].
    rewrite H2. apply Contains_errorBody.
  - intros Hd. rewrite decide_False in H1 by exact Hd.
    rewrite decide_False in H2 by exact Hd.
    repeat split; [exact H1 | exact H2 |].
    rewrite H2. apply Contains_errorBody.
  - rewrite H2. apply Contains_errorBody.
  - exact H3.
  - unfold Header_Get.
    change (CanonicalMIMEHeaderKey "Content-Type") with "Content-Type".
    now rewrite H3.
Qed.

(** C8. A request to the health or the metrics handler with a method
    other than GET is answered 405. For GET, the health handler sends a
    HEAD to scheme://host of the target under a deadline of five seconds,
    answers 503 when the request cannot be made or the round trip fails,
    and 200 with a body holding ["status":"healthy"] when it succeeds; the
    metrics handler answers 200 with ["requests_total":0]. *)
Theorem health_and_metrics_answers (h : Handler) (w : ResponseWriter)
    (r : Request) :
  wStatus w = None -> wBody w = "" ->
  (Method r <> "GET" ->
     wStatus (fst (health h w r)) = Some 405 /\
     wStatus (metrics h w r) = Some 405) /\
  (oMethod (probe h) = "HEAD" /\
   oURL (probe h) = config.Scheme (config.Target (hconfig h)) ++ "://" ++
                    config.THost (config.Target (hconfig h)) /\
   oTimeout (probe h) = 5) /\
  (Method r = "GET" ->
     (is_Some (newRequestError W "HEAD" (oURL (probe h))) \/
      (exists e, Do W (probe h) = inr e) ->
      wStatus (fst (health h w r)) = Some 503) /\
     (newRequestError W "HEAD" (oURL (probe h)) = None ->
      (exists resp, Do W (probe h) = inl resp) ->
      wStatus (fst (health h w r)) = Some 200 /\
      Contains (wBody (fst (health h w r)))
        (quoted "status" ++ ":" ++ quoted "healthy")) /\
     wStatus (metrics h w r) = Some 200 /\
     Contains (wBody (metrics h w r)) (quoted "requests_total" ++ ":0")).
Proof.
  intros Hst Hbody. split; [|split; [repeat split|]].
  - intros Hm. unfold HealthCheck, Metrics.
    rewrite !decide_True by exact Hm. cbn [fst].
    split; now apply http_Error_status.
  - intros Hm.
    assert (Hget : ~ Method r <> "GET") by (intros Hn; now apply Hn).
    unfold HealthCheck, Metrics. rewrite !decide_False by exact Hget.
    change (oMethod (probe h)) with "HEAD".
    split; [|split; [|split]].
    + intros [[e He]|[e He]].
      * rewrite He. cbn [fst]. now apply http_Error_status.
      * destruct (newRequestError W "HEAD" (oURL (probe h))); cbn [fst];
          [|rewrite He; cbn [fst]]; now apply http_Error_status.
    + intros Hnew [resp Hresp]. rewrite Hnew, Hresp.
      unfold Write, WriteHeader, setHeader; simpl. rewrite Hst; simpl.
      split; [reflexivity|]. rewrite Hbody. apply Contains_healthyBody.
    + unfold Write, WriteHeader, setHeader; simpl. now rewrite Hst.
    + unfold Write, WriteHeader, setHeader; simpl. rewrite Hst; simpl.
      rewrite Hbody. apply Contains_metricsBody.
Qed.

(** [range] visits every entry of the map once, in some order. *)
Hypothesis range_is_permutation :
  forall m : Header, rangeHeader W m ≡ₚ map_to_list m.

Lemma range_canonical (m : Header) n vs :
  CanonicalKeys m -> In (n, vs) (rangeHeader W m) ->
  CanonicalMIMEHeaderKey n = n.
Proof.
  intros Hm Hin. apply list_elem_of_In in Hin.
  rewrite (range_is_permutation m) in Hin.
  apply elem_of_map_to_list in Hin. exact (Hm n vs Hin).
Qed.

(** C2. Whatever the letter case of the header names on the wire, the
    request built by [ForwardRequest] has no header under any spelling of
    a hop-by-hop name, and neither have the response headers that
    [copyResponseHeaders], and [ServeHTTP] with it, hand to the caller.
    The header maps are those [net/http] reads from the wire, from which
    it may have removed entries. *)
Theorem hop_by_hop_headers_are_dropped :
  (forall (c : Client) (timeout : Z) (r : Request) lines req,
     rHeader r ⊆ ReadMIMEHeader lines ->
     outbound W c timeout r = inl req ->
     forall hop name, In hop HopByHop -> eqFold name hop ->
       oHeader req !! name = None) /\
  (forall (w : ResponseWriter) (resp : Response) lines,
     respHeader resp ⊆ ReadMIMEHeader lines ->
     wHeader w = ∅ ->
     forall hop name, In hop HopByHop -> eqFold name hop ->
       wHeader (copyResponseHeaders W w resp) !! name = None) /\
  (forall (h : Handler) (w : ResponseWriter) (r : Request) resp lines,
     respHeader resp ⊆ ReadMIMEHeader lines ->
     wHeader w = ∅ ->
     ForwardRequest W (client h) 30 r = inl resp ->
     forall hop name, In hop HopByHop -> eqFold name hop ->
       wHeader (fst (serve h w r)) !! name = None).
Proof.
  assert (Hresp : forall (w : ResponseWriter) (resp : Response) lines,
     respHeader resp ⊆ ReadMIMEHeader lines ->
     wHeader w = ∅ ->
     forall hop name, In hop HopByHop -> eqFold name hop ->
       wHeader (copyResponseHeaders W w resp) !! name = None).
  { intros w resp lines Hsub Hw hop name Hhop Hfold.
    unfold copyResponseHeaders; simpl.
    apply (copyLoop_drops_hop _ _ _ name hop); try assumption.
    - intros h0 Hh0. now destruct (hop_names h0 Hh0) as (_ & ? & _).
    - intros n vs. apply range_canonical.
      exact (CanonicalKeys_subseteq _ _ Hsub (CanonicalKeys_ReadMIMEHeader lines)).
    - rewrite Hw. apply lookup_empty. }
  split; [|split; [exact Hresp|]].
  - intros c timeout r lines req Hsub Hout hop name Hhop Hfold.
    unfold outbound in Hout.
    destruct (newRequestError W _ _); [discriminate|].
    injection Hout as <-.
    destruct (forwarded_not_hop name hop Hhop Hfold) as (N1 & N2 & N3).
    unfold copyHeaders, withHeader, Header_Set; simpl.
    destruct Canonical_forwarded as (-> & -> & ->).
    assert (Hloop : copyLoop copyHeaders_hopHeaders
                      (rangeHeader W (rHeader r)) ∅ !! name = None).
    { apply (copyLoop_drops_hop _ _ _ name hop); try assumption.
      - intros h0 Hh0. now destruct (hop_names h0 Hh0) as (? & _).
      - intros n vs. apply range_canonical.
        exact (CanonicalKeys_subseteq _ _ Hsub (CanonicalKeys_ReadMIMEHeader lines)).
      - apply lookup_empty. }
    case_decide.
    + rewrite !lookup_insert_ne by congruence. exact Hloop.
    + rewrite !lookup_insert_ne by congruence. exact Hloop.
  - intros h w r resp lines Hsub Hw Hfwd hop name Hhop Hfold.
    pose proof (Hresp w resp lines Hsub Hw hop name Hhop Hfold) as Hc.
    unfold ServeHTTP. rewrite Hfwd.
    unfold ioCopy. destruct (copyFault W) as [[n e]|]; simpl;
      now rewrite !WriteHeader_header.
Qed.

End Handler.

Lemma forwarding_failure_is_504_or_502_witness :
  wStatus (fst (ServeHTTP samples.lateWorld samples.formatRFC3339
                  samples.jsonMarshal samples.sprintV samples.rangeFields
                  samples.handler newResponseWriter samples.inbound))
    = Some 504 /\
  wStatus (fst (ServeHTTP samples.world samples.formatRFC3339
                  samples.jsonMarshal samples.sprintV samples.rangeFields
                  samples.handler newResponseWriter samples.inbound))
    = Some 502.
Proof.
  split.
  - assert (Hfail : ForwardRequest samples.lateWorld
                      (client samples.handler) 30 samples.inbound
                    = inr (ProxyRequestFailed "context deadline exceeded"))
      by (vm_compute; reflexivity).
    destruct (forwarding_failure_is_504_or_502 samples.lateWorld
                samples.formatRFC3339 samples.jsonMarshal samples.sprintV
                samples.rangeFields samples.handler newResponseWriter
                samples.inbound _ eq_refl eq_refl Hfail) as (H & _).
    apply H. reflexivity.
  - assert (Hfail : ForwardRequest samples.world
                      (client samples.handler) 30 samples.inbound
                    = inr (ProxyRequestFailed
                             "proxyconnect tcp: connection refused"))
      by (vm_compute; reflexivity).
    destruct (forwarding_failure_is_504_or_502 samples.world
                samples.formatRFC3339 samples.jsonMarshal samples.sprintV
                samples.rangeFields samples.handler newResponseWriter
                samples.inbound _ eq_refl eq_refl Hfail) as (_ & H & _).
    apply H. discriminate.
Defined.

Lemma health_and_metrics_answers_witness :
  wStatus (fst (HealthCheck samples.world samples.formatRFC3339
                  samples.jsonMarshal samples.sprintV samples.rangeFields
                  samples.handler newResponseWriter samples.inboundPost))
    = Some 405 /\
  wStatus (fst (HealthCheck samples.world samples.formatRFC3339
                  samples.jsonMarshal samples.sprintV samples.rangeFields
                  samples.handler newResponseWriter samples.inbound))
    = Some 503 /\
  wStatus (fst (HealthCheck samples.openWorld samples.formatRFC3339
                  samples.jsonMarshal samples.sprintV samples.rangeFields
                  samples.handler newResponseWriter samples.inbound))
    = Some 200 /\
  wStatus (Metrics samples.world samples.durationString samples.handler
             newResponseWriter samples.inbound) = Some 200.
Proof.
  split; [|split; [|split]].
  - destruct (health_and_metrics_answers samples.world samples.formatRFC3339
                samples.jsonMarshal samples.sprintV samples.rangeFields
                samples.durationString samples.handler newResponseWriter
                samples.inboundPost eq_refl eq_refl) as (H & _).
    apply H. discriminate.
  - destruct (health_and_metrics_answers samples.world samples.formatRFC3339
                samples.jsonMarshal samples.sprintV samples.rangeFields
                samples.durationString samples.handler newResponseWriter
                samples.inbound eq_refl eq_refl) as (_ & _ & H).
    destruct (H eq_refl) as (H503 & _). apply H503.
    right. eexists. reflexivity.
  - destruct (health_and_metrics_answers samples.openWorld
                samples.formatRFC3339 samples.jsonMarshal samples.sprintV
                samples.rangeFields samples.durationString samples.handler
                newResponseWriter samples.inbound eq_refl eq_refl)
      as (_ & _ & H).
    destruct (H eq_refl) as (_ & H200 & _).
    apply H200; [reflexivity | eexists; reflexivity].
  - destruct (health_and_metrics_answers samples.world samples.formatRFC3339
                samples.jsonMarshal samples.sprintV samples.rangeFields
                samples.durationString samples.handler newResponseWriter
                samples.inbound eq_refl eq_refl) as (_ & _ & H).
    destruct (H eq_refl) as (_ & _ & Hm & _). exact Hm.
Defined.

Lemma hop_by_hop_headers_are_dropped_witness :
  (exists req,
     outbound samples.openWorld samples.client 30 samples.inbound = inl req /\
     oHeader req !! "Connection" = None /\
     oHeader req !! "UPGRADE" = None /\
     oHeader req !! "Te" = None) /\
  wHeader (fst (ServeHTTP samples.openWorld samples.formatRFC3339
                  samples.jsonMarshal samples.sprintV samples.rangeFields
                  samples.handler newResponseWriter samples.inbound))
    !! "Keep-Alive" = None.
Proof.
  assert (Hperm : forall m : Header,
             rangeHeader samples.openWorld m ≡ₚ map_to_list m)
    by (intros m; reflexivity).
  destruct (hop_by_hop_headers_are_dropped samples.openWorld
              samples.formatRFC3339 samples.jsonMarshal samples.sprintV
              samples.rangeFields Hperm) as (Hreq & _ & Hserve).
  split.
  - eexists. split; [reflexivity|].
    assert (Hsub : rHeader samples.inbound ⊆ ReadMIMEHeader samples.inboundLines)
      by reflexivity.
    pose proof (Hreq samples.client 30 samples.inbound samples.inboundLines
                  _ Hsub eq_refl) as H.
    split; [|split].
    + apply (H "Connection"); [simpl; tauto | reflexivity].
    + apply (H "Upgrade"); [simpl; tauto | reflexivity].
    + apply (H "Te"); [simpl; tauto | reflexivity].
  - assert (Hsub : ReadMIMEHeader samples.upstreamLines
                   ⊆ ReadMIMEHeader samples.upstreamLines) by reflexivity.
    apply (Hserve samples.handler newResponseWriter samples.inbound
             {| StatusCode := 200;
                respHeader := ReadMIMEHeader samples.upstreamLines;
                respBody := "ok" |} samples.upstreamLines Hsub eq_refl eq_refl
             "Keep-Alive"); [simpl; tauto | reflexivity].
Defined.

End handler_props.

(** ** More on the configuration *)

Module config_more.
Import golib config config_props.

Lemma Config_ext (c1 c2 : Config) :
  Port (Server c1) = Port (Server c2) ->
  Host (Server c1) = Host (Server c2) ->
  Scheme (Target c1) = Scheme (Target c2) ->
  THost (Target c1) = THost (Target c2) ->
  URL (Proxy c1) = URL (Proxy c2) ->
  Username (Proxy c1) = Username (Proxy c2) ->
  Password (Proxy c1) = Password (Proxy c2) ->
  Level (Logging c1) = Level (Logging c2) ->
  Format (Logging c1) = Format (Logging c2) ->
  c1 = c2.
Proof.
  destruct c1 as [[] [] [] []], c2 as [[] [] [] []]; simpl.
  intros; congruence.
Qed.

(** The value a text field has after one step. *)
Lemma overrideString_value (proj : Config -> string) env key assign c :
  (forall c v, proj (assign c v) = v) ->
  proj (overrideString env key assign c) =
    if decide (Getenv env key <> "") then Getenv env key else proj c.
Proof.
  intros H. unfold overrideString. case_decide; [apply H | reflexivity].
Qed.

Ltac field_after proj :=
  unfold applyEnvironmentOverrides; cbv zeta;
  pass_through proj;
  rewrite (overrideString_value proj) by reflexivity;
  pass_through proj; reflexivity.

Lemma host_after env file :
  Host (Server (applyEnvironmentOverrides env file)) =
    if decide (Getenv env "PROXY_HOST" <> "") then Getenv env "PROXY_HOST"
    else Host (Server file).
Proof. field_after (fun c => Host (Server c)). Qed.

Lemma target_host_after env file :
  THost (Target (applyEnvironmentOverrides env file)) =
    if decide (Getenv env "TARGET_HOST" <> "") then Getenv env "TARGET_HOST"
    else THost (Target file).
Proof. field_after (fun c => THost (Target c)). Qed.

Lemma target_scheme_after env file :
  Scheme (Target (applyEnvironmentOverrides env file)) =
    if decide (Getenv env "TARGET_SCHEME" <> "") then Getenv env "TARGET_SCHEME"
    else Scheme (Target file).
Proof. field_after (fun c => Scheme (Target c)). Qed.

Lemma proxy_url_after env file :
  URL (Proxy (applyEnvironmentOverrides env file)) =
    if decide (Getenv env "PROXY_URL" <> "") then Getenv env "PROXY_URL"
    else URL (Proxy file).
Proof. field_after (fun c => URL (Proxy c)). Qed.

Lemma proxy_username_after env file :
  Username (Proxy (applyEnvironmentOverrides env file)) =
    if decide (Getenv env "PROXY_USERNAME" <> "") then Getenv env "PROXY_USERNAME"
    else Username (Proxy file).
Proof. field_after (fun c => Username (Proxy c)). Qed.

Lemma proxy_password_after env file :
  Password (Proxy (applyEnvironmentOverrides env file)) =
    if decide (Getenv env "PROXY_PASSWORD" <> "") then Getenv env "PROXY_PASSWORD"
    else Password (Proxy file).
Proof. field_after (fun c => Password (Proxy c)). Qed.

Lemma log_level_after env file :
  Level (Logging (applyEnvironmentOverrides env file)) =
    if decide (Getenv env "LOG_LEVEL" <> "") then Getenv env "LOG_LEVEL"
    else Level (Logging file).
Proof. field_after (fun c => Level (Logging c)). Qed.

Lemma log_format_after env file :
  Format (Logging (applyEnvironmentOverrides env file)) = Format (Logging file).
Proof.
  unfold applyEnvironmentOverrides; cbv zeta.
  pass_through (fun c => Format (Logging c)). reflexivity.
Qed.

Ltac keep H := rewrite decide_False by (intros Hn; apply Hn; exact H).

(** A variable that is unset or empty leaves the field of the file; the
    log format has no variable and is always the one of the file. Without
    any of the eight variables the configuration is returned as it was. *)
Theorem overrides_leave_unset_fields env file :
  let c := applyEnvironmentOverrides env file in
  Format (Logging c) = Format (Logging file) /\
  (Getenv env "PROXY_PORT" = "" -> Port (Server c) = Port (Server file)) /\
  (Getenv env "PROXY_HOST" = "" -> Host (Server c) = Host (Server file)) /\
  (Getenv env "TARGET_HOST" = "" -> THost (Target c) = THost (Target file)) /\
  (Getenv env "TARGET_SCHEME" = "" ->
     Scheme (Target c) = Scheme (Target file)) /\
  (Getenv env "PROXY_URL" = "" -> URL (Proxy c) = URL (Proxy file)) /\
  (Getenv env "PROXY_USERNAME" = "" ->
     Username (Proxy c) = Username (Proxy file)) /\
  (Getenv env "PROXY_PASSWORD" = "" ->
     Password (Proxy c) = Password (Proxy file)) /\
  (Getenv env "LOG_LEVEL" = "" -> Level (Logging c) = Level (Logging file)) /\
  (Forall (fun key => Getenv env key = "")
     ["PROXY_PORT"; "PROXY_HOST"; "TARGET_HOST"; "TARGET_SCHEME";
      "PROXY_URL"; "PROXY_USERNAME"; "PROXY_PASSWORD"; "LOG_LEVEL"] ->
   c = file).
Proof.
  intros c. unfold c.
  assert (Hport : Getenv env "PROXY_PORT" = "" ->
                  Port (Server (applyEnvironmentOverrides env file))
                  = Port (Server file)).
  { intros H. now rewrite override_port, H, Atoi_empty. }
  repeat split.
  - apply log_format_after.
  - exact Hport.
  - intros H. rewrite host_after. now keep H.
  - intros H. rewrite target_host_after. now keep H.
  - intros H. rewrite target_scheme_after. now keep H.
  - intros H. rewrite proxy_url_after. now keep H.
  - intros H. rewrite proxy_username_after. now keep H.
  - intros H. rewrite proxy_password_after. now keep H.
  - intros H. rewrite log_level_after. now keep H.
  - intros Hall.
    repeat (apply Forall_cons_1 in Hall; destruct Hall as [? Hall]).
    apply Config_ext.
    + now apply Hport.
    + rewrite host_after. now keep H0.
    + rewrite target_scheme_after. now keep H2.
    + rewrite target_host_after. now keep H1.
    + rewrite proxy_url_after. now keep H3.
    + rewrite proxy_username_after. now keep H4.
    + rewrite proxy_password_after. now keep H5.
    + rewrite log_level_after. now keep H6.
    + apply log_format_after.
Qed.

Lemma overrides_leave_unset_fields_witness :
  Host (Server (applyEnvironmentOverrides samples.envPort9999 DefaultConfig))
    = "0.0.0.0" /\
  applyEnvironmentOverrides ∅ DefaultConfig = DefaultConfig.
Proof.
  split.
  - destruct (overrides_leave_unset_fields samples.envPort9999 DefaultConfig)
      as (_ & _ & H & _).
    apply H. reflexivity.
  - destruct (overrides_leave_unset_fields ∅ DefaultConfig)
      as (_ & _ & _ & _ & _ & _ & _ & _ & _ & H).
    apply H. repeat constructor.
Defined.

(** Applying the overrides of one environment a second time changes
    nothing. *)
Theorem overrides_idempotent env file :
  applyEnvironmentOverrides env (applyEnvironmentOverrides env file)
  = applyEnvironmentOverrides env file.
Proof.
  apply Config_ext.
  - rewrite (override_port env (applyEnvironmentOverrides env file)).
    rewrite (override_port env file).
    now destruct (Atoi (Getenv env "PROXY_PORT")).
  - rewrite (host_after env (applyEnvironmentOverrides env file)).
    case_decide as E; [|reflexivity].
    rewrite host_after. now rewrite decide_True by exact E.
  - rewrite (target_scheme_after env (applyEnvironmentOverrides env file)).
    case_decide as E; [|reflexivity].
    rewrite target_scheme_after. now rewrite decide_True by exact E.
  - rewrite (target_host_after env (applyEnvironmentOverrides env file)).
    case_decide as E; [|reflexivity].
    rewrite target_host_after. now rewrite decide_True by exact E.
  - rewrite (proxy_url_after env (applyEnvironmentOverrides env file)).
    case_decide as E; [|reflexivity].
    rewrite proxy_url_after. now rewrite decide_True by exact E.
  - rewrite (proxy_username_after env (applyEnvironmentOverrides env file)).
    case_decide as E; [|reflexivity].
    rewrite proxy_username_after. now rewrite decide_True by exact E.
  - rewrite (proxy_password_after env (applyEnvironmentOverrides env file)).
    case_decide as E; [|reflexivity].
    rewrite proxy_password_after. now rewrite decide_True by exact E.
  - rewrite (log_level_after env (applyEnvironmentOverrides env file)).
    case_decide as E; [|reflexivity].
    rewrite log_level_after. now rewrite decide_True by exact E.
  - now rewrite !log_format_after.
Qed.

(** [validateConfig] reports the first check that fails, in the order
    port, target host, target scheme, proxy URL, proxy username, proxy
    password, and the port and scheme errors carry the offending value. *)
Theorem validateConfig_reports_first_failure c :
  let portOK := 0 < Port (Server c) <= 65535 in
  let hostOK := THost (Target c) <> "" in
  let schemeOK := Scheme (Target c) = "http" \/ Scheme (Target c) = "https" in
  (forall p, validateConfig c = Some (InvalidServerPort p) <->
             p = Port (Server c) /\ ~ portOK) /\
  (validateConfig c = Some TargetHostRequired <-> portOK /\ ~ hostOK) /\
  (forall s, validateConfig c = Some (InvalidTargetScheme s) <->
             portOK /\ hostOK /\ s = Scheme (Target c) /\ ~ schemeOK) /\
  (validateConfig c = Some ProxyURLRequired <->
     portOK /\ hostOK /\ schemeOK /\ URL (Proxy c) = "") /\
  (validateConfig c = Some ProxyUsernameRequired <->
     portOK /\ hostOK /\ schemeOK /\ URL (Proxy c) <> "" /\
     Username (Proxy c) = "") /\
  (validateConfig c = Some ProxyPasswordRequired <->
     portOK /\ hostOK /\ schemeOK /\ URL (Proxy c) <> "" /\
     Username (Proxy c) <> "" /\ Password (Proxy c) = "").
Proof.
  intros portOK hostOK schemeOK. unfold portOK, hostOK, schemeOK.
  unfold validateConfig.
  destruct (Z.leb_spec (Port (Server c)) 0); simpl.
  { repeat split; try discriminate; try (intros; exfalso; lia);
      intuition (try congruence; try lia). }
  destruct (Z.ltb_spec 65535 (Port (Server c))); simpl.
  { repeat split; try discriminate; try (intros; exfalso; lia);
      intuition (try congruence; try lia). }
  destruct (decide (THost (Target c) = "")).
  { repeat split; try discriminate; try lia;
      intuition (try congruence; try lia). }
  destruct (decide (_ /\ _)) as [[? ?]|Hs].
  { repeat split; try discriminate; try lia;
      intuition (try congruence; try lia). }
  assert (Hscheme : Scheme (Target c) = "http" \/ Scheme (Target c) = "https").
  { destruct (decide (Scheme (Target c) = "http")); [tauto|].
    destruct (decide (Scheme (Target c) = "https")); tauto. }
  destruct (decide (URL (Proxy c) = "")).
  { repeat split; try discriminate; try lia;
      intuition (try congruence; try lia). }
  destruct (decide (Username (Proxy c) = "")).
  { repeat split; try discriminate; try lia;
      intuition (try congruence; try lia). }
  destruct (decide (Password (Proxy c) = "")).
  { repeat split; try discriminate; try lia;
      intuition (try congruence; try lia). }
  repeat split; try discriminate; try lia;
    intuition (try congruence; try lia).
Qed.

(** [LoadConfig] returns a configuration only when the file opens and
    decodes and the overridden configuration passes validation, so every
    configuration it returns is valid; a missing file is an open error and
    undecodable bytes are a decode error, whatever the environment. *)
Theorem LoadConfig_valid_or_error decode (fs : Files) env path :
  (fs !! path = None ->
     exists cause, LoadConfig decode fs env path = inr (OpenFailed cause)) /\
  (forall data cause,
     Open fs path = inl data -> decode data = inr cause ->
     LoadConfig decode fs env path = inr (DecodeFailed cause)) /\
  (forall c,
     LoadConfig decode fs env path = inl c ->
     Valid c /\
     exists data file,
       fs !! path = Some (Contents data) /\ decode data = inl file /\
       c = applyEnvironmentOverrides env file).
Proof.
  split; [|split].
  - intros Hnone. unfold LoadConfig, Open. rewrite Hnone. eauto.
  - intros data cause Ho Hd. unfold LoadConfig. now rewrite Ho, Hd.
  - intros c Hload.
    destruct (LoadConfig_inl _ _ _ _ _ Hload) as (data & file & Ho & Hd & Hc & Hv).
    split; [now apply validateConfig_nil|].
    exists data, file. repeat split; try assumption.
    unfold Open in Ho. destruct (fs !! path) as [[cause|d|]|]; congruence.
Qed.

Lemma LoadConfig_valid_or_error_witness :
  (exists cause,
     LoadConfig samples.decode samples.emptyDisk samples.envPort9999
       "nonexistent" = inr (OpenFailed cause)) /\
  Valid (applyEnvironmentOverrides samples.envPort9999 DefaultConfig).
Proof.
  destruct (LoadConfig_valid_or_error samples.decode samples.emptyDisk
              samples.envPort9999 "nonexistent") as (Hopen & _).
  destruct (LoadConfig_valid_or_error samples.decode samples.disk
              samples.envPort9999 "config/config.json") as (_ & _ & Hvalid).
  split.
  - apply Hopen. reflexivity.
  - apply (Hvalid (applyEnvironmentOverrides samples.envPort9999 DefaultConfig)).
    vm_compute; reflexivity.
Defined.

(** A [PROXY_PORT] that [strconv.Atoi] accepts and whose number is outside
    (0, 65535] makes the load of any decodable file fail with the port
    error for that number: the override is applied before validation. (A
    value [strconv.Atoi] refuses, a number too large for an [int] among
    them, is not assigned at all.) *)
Theorem port_override_out_of_range decode fs env path data file p :
  Open fs path = inl data -> decode data = inl file ->
  Atoi (Getenv env "PROXY_PORT") = Some p ->
  ~ (0 < p <= 65535) ->
  LoadConfig decode fs env path
  = inr (InvalidConfiguration (InvalidServerPort p)).
Proof.
  intros Ho Hd Hp Hrange.
  rewrite (LoadConfig_decoded _ _ _ _ _ _ Ho Hd).
  unfold validateConfig. rewrite !override_port, Hp.
  destruct (Z.leb_spec p 0); simpl; [reflexivity|].
  destruct (Z.ltb_spec 65535 p); simpl; [reflexivity|]. lia.
Qed.

Lemma port_override_out_of_range_witness :
  LoadConfig samples.decode samples.disk {[ "PROXY_PORT" := "70000" ]}
    "config/config.json"
  = inr (InvalidConfiguration (InvalidServerPort 70000)).
Proof.
  apply (port_override_out_of_range samples.decode samples.disk
           {[ "PROXY_PORT" := "70000" ]} "config/config.json"
           samples.defaultText DefaultConfig 70000).
  - vm_compute; reflexivity.
  - vm_compute; reflexivity.
  - vm_compute; reflexivity.
  - lia.
Defined.

Lemma validateConfig_reports_first_failure_witness :
  validateConfig samples.noTargetHost = Some TargetHostRequired.
Proof.
  destruct (validateConfig_reports_first_failure samples.noTargetHost)
    as (_ & H & _).
  apply H. simpl. split; [lia | intros Hn; now apply Hn].
Defined.

(** The overrides read the eight variables and nothing else: two
    environments that agree on them give the same configuration. *)
Theorem overrides_read_only_their_variables env1 env2 file :
  Forall (fun key => Getenv env1 key = Getenv env2 key)
    ["PROXY_PORT"; "PROXY_HOST"; "TARGET_HOST"; "TARGET_SCHEME";
     "PROXY_URL"; "PROXY_USERNAME"; "PROXY_PASSWORD"; "LOG_LEVEL"] ->
  applyEnvironmentOverrides env1 file = applyEnvironmentOverrides env2 file.
Proof.
  intros Hall.
  repeat (apply Forall_cons_1 in Hall; destruct Hall as [? Hall]).
  apply Config_ext.
  - rewrite !override_port. now rewrite H.
  - rewrite !host_after. now rewrite H0.
  - rewrite !target_scheme_after. now rewrite H2.
  - rewrite !target_host_after. now rewrite H1.
  - rewrite !proxy_url_after. now rewrite H3.
  - rewrite !proxy_username_after. now rewrite H4.
  - rewrite !proxy_password_after. now rewrite H5.
  - rewrite !log_level_after. now rewrite H6.
  - now rewrite !log_format_after.
Qed.

Lemma overrides_read_only_their_variables_witness :
  applyEnvironmentOverrides (<["HOME" := "/root"]> samples.envPort9999)
    DefaultConfig
  = applyEnvironmentOverrides samples.envPort9999 DefaultConfig.
Proof.
  apply overrides_read_only_their_variables.
  repeat constructor.
Defined.

End config_more.


(** ** More on the start-up fallback *)

Module main_more.
Import golib config config_props main.

(** Started a second time, the program loads the file the fallback wrote:
    when the decoder reads back what the encoder wrote, the load of the
    path after a successful fallback is the default configuration with the
    overrides of the environment of that second start, validated. *)
Theorem fallback_file_loads_back
    decode encode faults (fs : Files) (env env' : Env) path :
  statIsNotExist fs path = true ->
  mkdirAllError faults = None -> createError faults = None ->
  encodeError faults = None ->
  decode (encode DefaultConfig) = inl DefaultConfig ->
  let fs' := files (loadConfigWithFallback decode encode faults fs env path) in
  statIsNotExist fs' path = false /\
  LoadConfig decode fs' env' path =
    match validateConfig (applyEnvironmentOverrides env' DefaultConfig) with
    | Some e => inr (InvalidConfiguration e)
    | None => inl (applyEnvironmentOverrides env' DefaultConfig)
    end /\
  (applyEnvironmentOverrides env' DefaultConfig = DefaultConfig ->
   result (loadConfigWithFallback decode encode faults fs' env' path)
   = inl DefaultConfig).
Proof.
  intros Hstat Hmk Hcr Hen Hround fs'.
  assert (Hfs : fs' = <[path := Contents (encode DefaultConfig)]>
                        (MkdirAll fs "config")).
  { unfold fs', loadConfigWithFallback. now rewrite Hstat, Hmk, Hcr, Hen. }
  assert (Hlook : fs' !! path = Some (Contents (encode DefaultConfig))).
  { rewrite Hfs. apply lookup_insert_eq. }
  assert (Hopen : Open fs' path = inl (encode DefaultConfig)).
  { unfold Open. now rewrite Hlook. }
  assert (Hex : statIsNotExist fs' path = false).
  { unfold statIsNotExist. now rewrite Hlook. }
  split; [exact Hex|]. split.
  - apply (LoadConfig_decoded _ _ _ _ _ _ Hopen Hround).
  - intros Hid. unfold loadConfigWithFallback. rewrite Hex. simpl.
    rewrite (LoadConfig_decoded _ _ _ _ _ _ Hopen Hround), Hid.
    assert (Hv : validateConfig DefaultConfig = None)
      by (apply validateConfig_nil, Valid_DefaultConfig).
    now rewrite Hv.
Qed.

Lemma fallback_file_loads_back_witness :
  LoadConfig samples.decode
    (files (loadConfigWithFallback samples.decode samples.encode noFaults
              samples.emptyDisk ∅ "config/config.json"))
    samples.envPort9999 "config/config.json"
  = inl (applyEnvironmentOverrides samples.envPort9999 DefaultConfig).
Proof.
  destruct (fallback_file_loads_back samples.decode samples.encode noFaults
              samples.emptyDisk ∅ samples.envPort9999 "config/config.json"
              eq_refl eq_refl eq_refl eq_refl eq_refl) as (_ & H & _).
  rewrite H. vm_compute; reflexivity.
Defined.





(** A file that exists is never replaced by the default: the file system
    is left as it is, nothing is printed, the result is the one of
    [LoadConfig], and a file that cannot be opened is reported as a load
    error. *)
Theorem fallback_keeps_existing_file
    decode encode faults (fs : Files) (env : Env) path entry :
  fs !! path = Some entry ->
  let out := loadConfigWithFallback decode encode faults fs env path in
  files out = fs /\ stdout out = [] /\
  (forall c, result out = inl c <-> LoadConfig decode fs env path = inl c) /\
  (forall c, result out = inl c -> Valid c) /\
  (forall cause, entry = Unreadable cause ->
     result out = inr (LoadFailed (OpenFailed cause))).
Proof.
  intros Hentry out.
  assert (Hstat : statIsNotExist fs path = false)
    by (unfold statIsNotExist; now rewrite Hentry).
  unfold out, loadConfigWithFallback. rewrite Hstat. simpl.
  split; [reflexivity|]. split; [reflexivity|]. split; [|split].
  - intros c. destruct (LoadConfig decode fs env path); split; congruence.
  - intros c Hc.
    destruct (LoadConfig decode fs env path) as [c'|] eqn:Hload; [|discriminate].
    injection Hc as <-.
    destruct (LoadConfig_inl _ _ _ _ _ Hload) as (_ & _ & _ & _ & _ & Hv).
    now apply validateConfig_nil.
  - intros cause ->. unfold LoadConfig, Open. now rewrite Hentry.
Qed.

Lemma fallback_keeps_existing_file_witness :
  files (loadConfigWithFallback samples.decode samples.encode noFaults
           samples.disk ∅ "config/config.json") = samples.disk.
Proof.
  destruct (fallback_keeps_existing_file samples.decode samples.encode
              noFaults samples.disk ∅ "config/config.json"
              (Contents samples.defaultText) eq_refl) as (H & _).
  exact H.
Defined.

End main_more.


(** ** More on the logger *)

Module logging_more.
Import golib golib_facts logging logging_props scenarios.

Lemma append_nil_r (a : string) : a ++ "" = a.
Proof.
  induction a as [|x a IH]; [reflexivity|].
  now rewrite append_cons, IH.
Qed.

Lemma Contains_refl s : Contains s s.
Proof. exists "", "". now rewrite append_nil_r. Qed.

Lemma Contains_app_l a b s : Contains a s -> Contains (a ++ b) s.
Proof.
  intros (pre & post & ->). exists pre, (post ++ b).
  now rewrite !append_assoc.
Qed.

Lemma Contains_app_r a b s : Contains b s -> Contains (a ++ b) s.
Proof.
  intros (pre & post & ->). exists (a ++ pre), post.
  now rewrite append_assoc.
Qed.

Lemma Contains_Join elems sep e : In e elems -> Contains (Join elems sep) e.
Proof.
  induction elems as [|x elems IH]; [intros []|].
  intros [->|Hin].
  - destruct elems; simpl; [apply Contains_refl|].
    apply Contains_app_l, Contains_refl.
  - destruct elems as [|y elems]; [destruct Hin|].
    change (Join (x :: y :: elems) sep)
      with (x ++ sep ++ Join (y :: elems) sep).
    apply Contains_app_r, Contains_app_r, IH, Hin.
Qed.

Section LoggerMore.

Variable unicodeUpper : string -> string.
Variable formatRFC3339 : Z -> string.
Variable jsonMarshal : LogEntry -> string + string.
Variable sprintV : Value -> string.
Variable rangeFields : Fields -> list (string * Value).

Local Abbreviation parse := (parseLogLevel unicodeUpper).
Local Abbreviation logf := (log formatRFC3339 jsonMarshal sprintV rangeFields).
Local Abbreviation logSeq :=
  (logAll formatRFC3339 jsonMarshal sprintV rangeFields).

Lemma log_step l now lvl message fields :
  level (logf l now lvl message fields) = level l /\
  format (logf l now lvl message fields) = format l /\
  exists suffix,
    writer (logf l now lvl message fields) = (writer l ++ suffix)%list /\
    length suffix = length (reaching (level l)
                              [{| callTime := now; callLevel := lvl;
                                  callMessage := message;
                                  callFields := fields |}]).
Proof.
  unfold reaching. simpl. destruct (Z.leb_spec (level l) lvl) as [Hle|Hlt].
  - destruct (log_at_or_above formatRFC3339 jsonMarshal sprintV rangeFields
                l now lvl message fields Hle) as (line & Hw & Hl & Hf).
    repeat split; try assumption. now exists [line].
  - rewrite (log_below formatRFC3339 jsonMarshal sprintV rangeFields
               l now lvl message fields) by lia.
    repeat split. exists []. now rewrite app_nil_r.
Qed.

(** A sequence of calls never changes the level or the format of the
    logger and never removes or rewrites earlier output: it appends one
    line for each call whose level reaches the level of the logger, and
    nothing for the others. *)
Theorem logAll_appends_reaching_calls l calls :
  level (logSeq l calls) = level l /\
  format (logSeq l calls) = format l /\
  exists suffix,
    writer (logSeq l calls) = (writer l ++ suffix)%list /\
    length suffix = length (reaching (level l) calls).
Proof.
  revert l. induction calls as [|c calls IH]; intros l.
  - simpl. repeat split. exists []. now rewrite app_nil_r.
  - change (logSeq l (c :: calls))
      with (logSeq (logf l (callTime c) (callLevel c) (callMessage c)
                      (callFields c)) calls).
    destruct (log_step l (callTime c) (callLevel c) (callMessage c)
                (callFields c)) as (Hl & Hf & s1 & Hw1 & Hn1).
    destruct (IH (logf l (callTime c) (callLevel c) (callMessage c)
                    (callFields c))) as (Hl' & Hf' & s2 & Hw2 & Hn2).
    rewrite Hl', Hf', Hl, Hf. repeat split.
    exists (s1 ++ s2)%list. split.
    + now rewrite Hw2, Hw1, app_assoc.
    + rewrite length_app, Hn1, Hn2, Hl. destruct c as [t lv m f].
      unfold reaching. simpl. destruct (level l <=? lv); simpl; lia.
Qed.

(** The line of an entry that is written. In a format other than json it
    is the timestamp in brackets, the level name, the message, and then
    nothing when there are no fields, or a text in which every field shows
    as key=value; in the json format a marshalling error is written in
    place of the entry, still as one line. *)
Theorem written_line_shows_entry l now lvl message fields :
  level l <= lvl ->
  (format l <> "json" ->
   rangeFields fields ≡ₚ map_to_list fields ->
   exists rest,
     writer (logf l now lvl message fields) =
       (writer l ++
          [("[" ++ formatRFC3339 now ++ "] " ++ LogLevel_String lvl ++ " " ++
            message ++ rest ++ newline)%string])%list /\
     (fields = ∅ -> rest = "") /\
     (forall k v, fields !! k = Some v ->
        Contains rest (k ++ "=" ++ sprintV v))) /\
  (format l = "json" ->
   forall err,
     jsonMarshal {| Timestamp := formatRFC3339 now;
                    Level := LogLevel_String lvl;
                    Message := message; EFields := fields |} = inr err ->
     writer (logf l now lvl message fields) =
       (writer l ++
          [("Failed to marshal log entry: " ++ err ++ newline)%string])%list).
Proof.
  intros Hle.
  assert (Hlt : (lvl <? level l) = false) by (apply Z.ltb_ge; lia).
  split.
  - intros Hfmt Hperm. unfold log. rewrite Hlt.
    rewrite decide_False by exact Hfmt. cbv zeta. simpl writer. simpl Timestamp.
    simpl Level.
    destruct (decide (0 < size fields)%nat) as [Hsz|Hsz].
    + exists (" " ++ Join (map (fun kv => fst kv ++ "=" ++ sprintV (snd kv))
                             (rangeFields fields)) " ").
      split; [|split].
      * f_equal. f_equal. rewrite !append_assoc. reflexivity.
      * intros ->. rewrite map_size_empty in Hsz. lia.
      * intros k v Hk. apply Contains_app_r, Contains_Join.
        apply (in_map (fun kv => fst kv ++ "=" ++ sprintV (snd kv))
                 (rangeFields fields) (k, v)).
        apply list_elem_of_In. rewrite Hperm.
        now apply elem_of_map_to_list.
    + exists "". split; [|split].
      * f_equal. f_equal. rewrite !append_assoc. reflexivity.
      * reflexivity.
      * intros k v Hk. exfalso. apply Hsz.
        assert (size fields <> 0%nat); [|lia].
        intros H0. apply map_size_empty_inv in H0. subst fields.
        now rewrite lookup_empty in Hk.
  - intros Hfmt err Herr. unfold log. rewrite Hlt.
    rewrite decide_True by exact Hfmt. cbv zeta. now rewrite Herr.
Qed.

(** [String] and [parseLogLevel] are inverse on the four levels; any other
    number prints as UNKNOWN, which parses as INFO; and whatever the
    configured text, the level of a new logger is one of the four. *)
Theorem level_names_round_trip :
  (forall l, DEBUG <= l <= ERROR -> parse (LogLevel_String l) = l) /\
  (forall l, ~ (DEBUG <= l <= ERROR) ->
     LogLevel_String l = "UNKNOWN" /\ parse (LogLevel_String l) = INFO) /\
  (forall cfg,
     DEBUG <= level (NewLogger unicodeUpper cfg) <= ERROR /\
     LogLevel_String (level (NewLogger unicodeUpper cfg)) <> "UNKNOWN" /\
     format (NewLogger unicodeUpper cfg) = config.Format cfg).
Proof.
  split; [|split].
  - intros l Hl. unfold DEBUG, ERROR in Hl.
    assert (l = 0 \/ l = 1 \/ l = 2 \/ l = 3) as [->|[->|[->| ->]]] by lia;
      reflexivity.
  - intros l Hl. unfold DEBUG, ERROR in Hl.
    assert (Hs : LogLevel_String l = "UNKNOWN").
    { unfold LogLevel_String, DEBUG, INFO, WARN, ERROR.
      destruct (Z.eqb_spec l 0); [lia|]. destruct (Z.eqb_spec l 1); [lia|].
      destruct (Z.eqb_spec l 2); [lia|]. destruct (Z.eqb_spec l 3); [lia|].
      reflexivity. }
    rewrite Hs. split; reflexivity.
  - intros cfg. unfold NewLogger; simpl.
    assert (Hp : parse (config.Level cfg) = DEBUG \/
                 parse (config.Level cfg) = INFO \/
                 parse (config.Level cfg) = WARN \/
                 parse (config.Level cfg) = ERROR).
    { unfold parseLogLevel. repeat case_decide; tauto. }
    destruct Hp as [->|[->|[->| ->]]]; repeat split;
      try (unfold DEBUG, INFO, WARN, ERROR; lia); discriminate.
Qed.

End LoggerMore.

Lemma written_line_shows_entry_witness :
  exists rest,
    writer (Debug samples.formatRFC3339 samples.jsonMarshal samples.sprintV
              samples.rangeFields
              (NewLogger samples.unicodeUpper
                 {| config.Level := "debug"; config.Format := "text" |})
              0 "debug message" {[ "component" := VString "test" ]})
    = [("[2024-05-01T12:00:00Z] DEBUG debug message" ++ rest ++ newline)%string]
    /\ Contains rest "component=test".
Proof.
  destruct (written_line_shows_entry samples.formatRFC3339 samples.jsonMarshal
              samples.sprintV samples.rangeFields
              (NewLogger samples.unicodeUpper
                 {| config.Level := "debug"; config.Format := "text" |})
              0 DEBUG "debug message" {[ "component" := VString "test" ]})
    as (Htext & _); [vm_compute; discriminate|].
  destruct Htext as (rest & Hw & _ & Hfield);
    [discriminate | reflexivity |].
  exists rest. split; [exact Hw|].
  apply (Hfield "component" (VString "test")). reflexivity.
Defined.

Lemma level_names_round_trip_witness :
  parseLogLevel samples.unicodeUpper (LogLevel_String WARN) = WARN /\
  LogLevel_String 7 = "UNKNOWN".
Proof.
  destruct (level_names_round_trip samples.unicodeUpper) as (H1 & H2 & _).
  split.
  - apply H1. unfold DEBUG, WARN, ERROR. lia.
  - apply H2. unfold DEBUG, ERROR. lia.
Defined.

End logging_more.


(** ** More on the forwarding client and the handlers *)

Module proxy_more.
Import golib golib_facts header_facts url_facts proxy client_props
  handler_props scenarios.

(** *** What the copy loops leave under a key *)

Lemma addValues_spec name values (dst : Header) k :
  fold_left (fun d v => Header_Add d name v) values dst !! k =
    if decide (k = CanonicalMIMEHeaderKey name) then
      match values with
      | [] => dst !! k
      | _ => Some (default [] (dst !! k) ++ values)%list
      end
    else dst !! k.
Proof.
  revert dst. induction values as [|v values IH]; intros dst; simpl.
  - now case_decide.
  - rewrite IH. unfold Header_Add. case_decide as E.
    + subst k. rewrite lookup_insert_eq. simpl.
      destruct values; simpl; [reflexivity|].
      f_equal. now rewrite <- app_assoc.
    + now rewrite lookup_insert_ne by congruence.
Qed.

Lemma copyLoop_cons table n vs entries (dst : Header) :
  copyLoop table ((n, vs) :: entries) dst =
    copyLoop table entries
      (if negb (index table n)
       then fold_left (fun d v => Header_Add d n v) vs dst else dst).
Proof. reflexivity. Qed.

Lemma copyLoop_other table entries (dst : Header) k :
  (forall n vs, In (n, vs) entries -> CanonicalMIMEHeaderKey n <> k) ->
  copyLoop table entries dst !! k = dst !! k.
Proof.
  revert dst. induction entries as [|[n vs] entries IH]; intros dst H;
    [reflexivity|].
  rewrite copyLoop_cons, IH by (intros n' vs' Hin; apply (H n' vs'); now right).
  destruct (index table n); simpl; [reflexivity|].
  rewrite addValues_spec, decide_False; [reflexivity|].
  intros ->. now apply (H n vs); [left|].
Qed.

Lemma copyLoop_key table entries (dst : Header) k vs :
  NoDup (entries.*1) ->
  (forall n vs, In (n, vs) entries -> CanonicalMIMEHeaderKey n = n) ->
  In (k, vs) entries ->
  copyLoop table entries dst !! k =
    if index table k then dst !! k
    else match vs with
         | [] => dst !! k
         | _ => Some (default [] (dst !! k) ++ vs)%list
         end.
Proof.
  revert dst. induction entries as [|[n vs0] entries IH];
    intros dst Hnd Hcan Hin; [destruct Hin|].
  rewrite fmap_cons in Hnd. apply NoDup_cons in Hnd as [Hnotin Hnd].
  simpl in Hnotin. rewrite copyLoop_cons.
  assert (Hrest : forall n' vs', In (n', vs') entries -> n' <> n).
  { intros n' vs' Hin' ->. apply Hnotin.
    apply list_elem_of_fmap. exists (n, vs'). split; [reflexivity|].
    now apply list_elem_of_In. }
  destruct Hin as [Heq|Hin].
  - injection Heq as -> ->.
    rewrite copyLoop_other.
    + destruct (index table k); simpl; [reflexivity|].
      rewrite addValues_spec, decide_True; [reflexivity|].
      symmetry. apply (Hcan k vs). now left.
    + intros n' vs' Hin' E.
      rewrite (Hcan n' vs') in E by now right.
      exact (Hrest n' vs' Hin' E).
  - assert (Hne : k <> n) by exact (Hrest k vs Hin).
    rewrite IH; [|exact Hnd|intros n' vs' Hin'; apply (Hcan n' vs'); now right
                 |exact Hin].
    assert (Hdst : (if negb (index table n)
                    then fold_left (fun d v => Header_Add d n v) vs0 dst
                    else dst) !! k = dst !! k).
    { destruct (index table n); simpl; [reflexivity|].
      rewrite addValues_spec, decide_False; [reflexivity|].
      rewrite (Hcan n vs0) by now left. exact Hne. }
    now rewrite Hdst.
Qed.

(** Over the entries of a map with canonical keys, in any order, the copy
    into an empty map leaves under every key what [relayed] says. *)
Lemma copyLoop_relays table (m : Header) entries k :
  entries ≡ₚ map_to_list m -> CanonicalKeys m ->
  copyLoop table entries ∅ !! k = relayed table m k.
Proof.
  intros Hperm Hcan. unfold relayed.
  assert (Hin : forall n vs, In (n, vs) entries <-> m !! n = Some vs).
  { intros n vs. rewrite <- list_elem_of_In, Hperm. apply elem_of_map_to_list. }
  assert (Hnd : NoDup (entries.*1)).
  { rewrite Hperm. apply NoDup_fst_map_to_list. }
  assert (Hkeys : forall n vs, In (n, vs) entries -> CanonicalMIMEHeaderKey n = n).
  { intros n vs Hn. apply (Hcan n vs). now apply Hin. }
  destruct (m !! k) as [vs|] eqn:Hk.
  - rewrite (copyLoop_key table entries ∅ k vs Hnd Hkeys) by now apply Hin.
    rewrite lookup_empty. destruct (index table k); [reflexivity|].
    now destruct vs.
  - rewrite copyLoop_other, lookup_empty; [now destruct (index table k)|].
    intros n vs Hn E. rewrite (Hkeys n vs Hn) in E. subst n.
    apply Hin in Hn. congruence.
Qed.


Section Relay.

Variable W : World.
Variable urlParseError : string -> option string.
Variable formatRFC3339 : Z -> string.
Variable jsonMarshal : logging.LogEntry -> string + string.
Variable sprintV : Value -> string.
Variable rangeFields : gmap string Value -> list (string * Value).
Variable durationString : Z -> string.

Local Abbreviation serve :=
  (ServeHTTP W formatRFC3339 jsonMarshal sprintV rangeFields).
Local Abbreviation health :=
  (HealthCheck W formatRFC3339 jsonMarshal sprintV rangeFields).
Local Abbreviation metrics := (Metrics W durationString).
Local Abbreviation logf :=
  (logging.log formatRFC3339 jsonMarshal sprintV rangeFields).



(** [NewHandler] refuses a configuration without proxy URL and one whose
    proxy URL does not parse; otherwise the handler holds the logger and
    the configuration it was given, and its client the proxy URL, the
    credentials of the configuration and the timeout of thirty seconds. A
    configuration that passed validation is never refused for a missing
    proxy URL. *)
Theorem NewHandler_results cfg lg :
  let url := config.URL (config.Proxy cfg) in
  (url = "" -> NewHandler urlParseError cfg lg = inr ProxyURLRequired) /\
  (url <> "" -> forall e, urlParseError url = Some e ->
     NewHandler urlParseError cfg lg = inr (InvalidProxyURL e)) /\
  (url <> "" -> urlParseError url = None ->
     exists h, NewHandler urlParseError cfg lg = inl h /\
       hconfig h = cfg /\ logger h = lg /\ cconfig (client h) = cfg /\
       proxyURL (client h) = url /\
       proxyUser (client h) = (config.Username (config.Proxy cfg),
                               config.Password (config.Proxy cfg)) /\
       clientTimeout (client h) = 30) /\
  (config.Valid cfg ->
     NewHandler urlParseError cfg lg <> inr ProxyURLRequired).
Proof.
  intros url. unfold url, NewHandler, NewClient. split; [|split; [|split]].
  - intros Hu. now rewrite decide_True by exact Hu.
  - intros Hu e He. rewrite decide_False by exact Hu. now rewrite He.
  - intros Hu Hp. rewrite decide_False by exact Hu. rewrite Hp.
    eexists. split; [reflexivity|]. repeat split.
  - intros (_ & _ & _ & Hu & _). rewrite decide_False by exact Hu.
    destruct (urlParseError _); discriminate.
Qed.


(** The health handler writes to the log only when the probe fails (one
    entry at ERROR); a refusal and a failure are answered in plain text
    with the reason and a newline, a success as JSON with the clock
    formatted as RFC 3339. Any answer of the upstream counts as success,
    whatever its status. *)
Theorem HealthCheck_answers_and_log (h : Handler) (w : ResponseWriter)
    (r : Request) :
  wStatus w = None -> wBody w = "" ->
  let out := health h w r in
  let nl := String (ascii_of_nat 10) "" in
  let failing :=
    is_Some (newRequestError W "HEAD" (oURL (probe h))) \/
    exists e, Do W (probe h) = inr e in
  (Method r <> "GET" ->
     snd out = logger h /\
     wBody (fst out) = "Method not allowed" ++ nl /\
     Header_Get (wHeader (fst out)) "Content-Type"
       = "text/plain; charset=utf-8") /\
  (Method r = "GET" -> failing ->
     wBody (fst out) = "Health check failed" ++ nl /\
     Header_Get (wHeader (fst out)) "Content-Type"
       = "text/plain; charset=utf-8" /\
     exists message fields,
       snd out = logging.Error formatRFC3339 jsonMarshal sprintV rangeFields
                   (logger h) (clock W 0) message fields) /\
  (Method r = "GET" -> newRequestError W "HEAD" (oURL (probe h)) = None ->
   forall resp, Do W (probe h) = inl resp ->
     snd out = logger h /\
     wStatus (fst out) = Some 200 /\
     wBody (fst out) = healthyBody (formatRFC3339 (clock W 1)) /\
     Header_Get (wHeader (fst out)) "Content-Type" = "application/json").
Proof.
  intros Hst Hbody out nl failing. unfold out, failing, HealthCheck.
  assert (Herr : forall msg code,
            wBody (http_Error w msg code) = msg ++ nl /\
            Header_Get (wHeader (http_Error w msg code)) "Content-Type"
              = "text/plain; charset=utf-8").
  { intros msg code. unfold http_Error, Write, WriteHeader, setHeader.
    simpl. rewrite Hst. simpl. rewrite Hbody. split; [reflexivity|].
    unfold Header_Get, Header_Set.
    change (CanonicalMIMEHeaderKey "Content-Type") with "Content-Type".
    change (CanonicalMIMEHeaderKey "X-Content-Type-Options")
      with "X-Content-Type-Options".
    rewrite lookup_insert_ne by discriminate.
    now rewrite lookup_insert_eq. }
  split; [|split].
  - intros Hm. rewrite decide_True by exact Hm. cbn [fst snd].
    split; [reflexivity|]. apply Herr.
  - intros Hm Hfail.
    rewrite decide_False by (intros Hn; now apply Hn).
    change (oMethod (probe h)) with "HEAD".
    destruct (newRequestError W "HEAD" (oURL (probe h))) as [e0|] eqn:Hnew.
    + cbn [fst snd]. destruct (Herr "Health check failed"
                                 StatusServiceUnavailable) as (Hb & Hc).
      split; [exact Hb|]. split; [exact Hc|]. eauto.
    + destruct Hfail as [[e He]|[e He]]; [discriminate|].
      rewrite He. cbn [fst snd].
      destruct (Herr "Health check failed" StatusServiceUnavailable)
        as (Hb & Hc).
      split; [exact Hb|]. split; [exact Hc|]. eauto.
  - intros Hm Hnew resp Hresp.
    rewrite decide_False by (intros Hn; now apply Hn).
    change (oMethod (probe h)) with "HEAD". rewrite Hnew, Hresp. cbn [fst snd].
    unfold Write, WriteHeader, setHeader. simpl. rewrite Hst. simpl.
    rewrite Hbody. repeat split.
    unfold Header_Get, Header_Set.
    change (CanonicalMIMEHeaderKey "Content-Type") with "Content-Type".
    now rewrite lookup_insert_eq.
Qed.

(** The metrics are static: for GET the answer is JSON whose uptime is the
    difference of two successive clock readings, and it is the same for
    every handler and every inbound request. *)
Theorem Metrics_is_static (h : Handler) (w : ResponseWriter) (r : Request) :
  wStatus w = None -> wBody w = "" -> Method r = "GET" ->
  wBody (metrics h w r)
    = metricsBody (durationString (clock W 1 - clock W 0)) /\
  Header_Get (wHeader (metrics h w r)) "Content-Type" = "application/json" /\
  (forall h' r', Method r' = "GET" -> metrics h' w r' = metrics h w r).
Proof.
  intros Hst Hbody Hm. unfold Metrics.
  rewrite decide_False by (intros Hn; now apply Hn).
  unfold Write, WriteHeader, setHeader. simpl. rewrite Hst. simpl.
  rewrite Hbody. split; [reflexivity|]. split.
  - unfold Header_Get, Header_Set.
    change (CanonicalMIMEHeaderKey "Content-Type") with "Content-Type".
    now rewrite lookup_insert_eq.
  - intros h' r' Hm'. now rewrite decide_False by (intros Hn; now apply Hn).
Qed.

(** [range] visits every entry of the map once, in some order. *)
Hypothesis range_is_permutation :
  forall m : Header, rangeHeader W m ≡ₚ map_to_list m.

(** The request handed to the transport has the inbound method (GET when
    the inbound method is empty), the body and the deadline
    [ForwardRequest] was given, and, apart from the three X-Forwarded
    headers, exactly the inbound headers that are not hop-by-hop, each with
    its values in their order. *)
Theorem outbound_carries_inbound_headers (c : Client) (timeout : Z)
    (r : Request) lines req :
  rHeader r ⊆ ReadMIMEHeader lines ->
  outbound W c timeout r = inl req ->
  oMethod req = (if decide (Method r = "") then "GET" else Method r) /\
  oBody req = rBody r /\ oTimeout req = timeout /\
  forall k,
    k <> "X-Forwarded-For" -> k <> "X-Forwarded-Proto" ->
    k <> "X-Forwarded-Host" ->
    oHeader req !! k = relayed copyHeaders_hopHeaders (rHeader r) k.
Proof.
  intros Hsub Hout. unfold outbound in Hout.
  destruct (newRequestError W _ _); [discriminate|].
  injection Hout as <-.
  split; [reflexivity|]. split; [reflexivity|]. split; [reflexivity|].
  intros k N1 N2 N3.
  unfold copyHeaders, withHeader, Header_Set; simpl.
  destruct Canonical_forwarded as (-> & -> & ->).
  assert (Hloop : copyLoop copyHeaders_hopHeaders
                    (rangeHeader W (rHeader r)) ∅ !! k
                  = relayed copyHeaders_hopHeaders (rHeader r) k).
  { apply copyLoop_relays; [apply range_is_permutation|].
    exact (CanonicalKeys_subseteq _ _ Hsub (CanonicalKeys_ReadMIMEHeader lines)). }
  case_decide; rewrite !lookup_insert_ne by congruence; exact Hloop.
Qed.


End Relay.


Lemma NewHandler_results_witness :
  NewHandler samples.urlParseError samples.noProxyURL
    (logger samples.handler) = inr ProxyURLRequired /\
  NewHandler samples.urlParseError config.DefaultConfig
    (logger samples.handler) <> inr ProxyURLRequired.
Proof.
  split.
  - destruct (NewHandler_results samples.urlParseError samples.noProxyURL
                (logger samples.handler)) as (H & _).
    apply H. reflexivity.
  - destruct (NewHandler_results samples.urlParseError config.DefaultConfig
                (logger samples.handler)) as (_ & _ & _ & H).
    apply H. unfold config.Valid; simpl.
    repeat split; try lia; try discriminate. right; reflexivity.
Defined.

Lemma HealthCheck_answers_and_log_witness :
  snd (HealthCheck samples.world samples.formatRFC3339 samples.jsonMarshal
         samples.sprintV samples.rangeFields samples.handler
         newResponseWriter samples.inboundPost) = logger samples.handler /\
  wStatus (fst (HealthCheck samples.openWorld samples.formatRFC3339
                  samples.jsonMarshal samples.sprintV samples.rangeFields
                  samples.handler newResponseWriter samples.inbound))
    = Some 200.
Proof.
  split.
  - destruct (HealthCheck_answers_and_log samples.world samples.formatRFC3339
                samples.jsonMarshal samples.sprintV samples.rangeFields
                samples.handler newResponseWriter samples.inboundPost
                eq_refl eq_refl) as (H & _).
    apply H. discriminate.
  - destruct (HealthCheck_answers_and_log samples.openWorld
                samples.formatRFC3339 samples.jsonMarshal samples.sprintV
                samples.rangeFields samples.handler newResponseWriter
                samples.inbound eq_refl eq_refl) as (_ & _ & H).
    destruct (H eq_refl eq_refl _ eq_refl) as (_ & H200 & _). exact H200.
Defined.

Lemma Metrics_is_static_witness :
  Header_Get
    (wHeader (Metrics samples.world samples.durationString samples.handler
                newResponseWriter samples.inbound)) "Content-Type"
  = "application/json".
Proof.
  destruct (Metrics_is_static samples.world samples.durationString
              samples.handler newResponseWriter samples.inbound
              eq_refl eq_refl eq_refl) as (_ & H & _).
  exact H.
Defined.

Lemma outbound_carries_inbound_headers_witness :
  exists req,
    outbound samples.openWorld samples.client 30 samples.inbound = inl req /\
    oMethod req = "GET" /\
    oHeader req !! "Accept" = Some ["*/*"] /\
    oHeader req !! "User-Agent" = Some ["curl/8.0"].
Proof.
  assert (Hperm : forall m : Header,
             rangeHeader samples.openWorld m ≡ₚ map_to_list m)
    by (intros m; reflexivity).
  assert (Hsub : rHeader samples.inbound ⊆ ReadMIMEHeader samples.inboundLines)
    by reflexivity.
  eexists. split; [reflexivity|].
  destruct (outbound_carries_inbound_headers samples.openWorld Hperm
              samples.client 30 samples.inbound samples.inboundLines _
              Hsub eq_refl) as (Hm & _ & _ & Hk).
  split; [exact Hm|]. split.
  - rewrite Hk by discriminate. vm_compute; reflexivity.
  - rewrite Hk by discriminate. vm_compute; reflexivity.
Defined.


(** Every configuration the program starts with is valid, whether it was
    loaded or is the built-in default that the fallback returns without
    validating; so [NewHandler] does not refuse it for a missing proxy
    URL. *)
Theorem started_configuration_is_valid decode encode faults (fs : Files)
    (env : Env) path urlParseError lg cfg :
  main.result (main.loadConfigWithFallback decode encode faults fs env path)
    = inl cfg ->
  config.Valid cfg /\
  NewHandler urlParseError cfg lg <> inr ProxyURLRequired.
Proof.
  intros Hres.
  assert (Hvalid : config.Valid cfg).
  { unfold main.loadConfigWithFallback in Hres.
    destruct (statIsNotExist fs path).
    - destruct (main.mkdirAllError faults); [discriminate|].
      destruct (main.createError faults); [discriminate|].
      destruct (main.encodeError faults) as [[written err]|]; [discriminate|].
      simpl in Hres. injection Hres as <-.
      apply config_props.Valid_DefaultConfig.
    - simpl in Hres.
      destruct (config.LoadConfig decode fs env path) as [c|] eqn:Hload;
        [|discriminate].
      injection Hres as <-.
      destruct (config_props.LoadConfig_inl _ _ _ _ _ Hload)
        as (_ & _ & _ & _ & _ & Hv).
      now apply config_props.validateConfig_nil. }
  split; [exact Hvalid|].
  destruct Hvalid as (_ & _ & _ & Hu & _).
  unfold NewHandler, NewClient. rewrite decide_False by exact Hu.
  destruct (urlParseError _); discriminate.
Qed.

Lemma started_configuration_is_valid_witness :
  config.Valid config.DefaultConfig.
Proof.
  apply (started_configuration_is_valid samples.decode samples.encode
           main.noFaults samples.emptyDisk samples.envPort9999
           "config/config.json" samples.urlParseError
           (logger samples.handler) config.DefaultConfig).
  reflexivity.
Defined.

End proxy_more.
